(** * DTV journal validation: the mapping / resolution / aggregation core

    A shallow embedding of [src/app.py] (the helpers nested in [main]):
    [clean_str], [extract_data], [load_product_mapping],
    [map_with_wildcard_clean], [transform_data], the totals of
    [load_summary] and the driver at the end of [main].

    Modelling conventions.
    - Text is [string]: the program's data are ASCII codes;
      [str.strip], [str.upper] and [str.lower] are modelled on ASCII.
    - A pandas cell that may be missing (NaN) is an [option string].
    - Amounts are exact rationals [Q]; rounding to two decimals is
      round-half-even on the exact value, and sums are exact.  The
      theorems on amounts are statements of this exact arithmetic.
    - The program itself computes on doubles, where Python's [round]
      (debit, credit) and numpy's [round] (amount) are two different
      functions; module [F64] evaluates the three amount columns on
      doubles, with each of the two.
    - A DataFrame is the list of its rows; a column-wise pandas statement
      becomes the computation of that column's cell in every row.
    - A mapping frame is taken with the columns the program reads in it;
      the [KeyError] that pandas raises for a file without one of them is
      outside the model. *)

From Stdlib Require Import String Ascii List Bool Arith ZArith QArith Qround Qabs DecimalString.
From Stdlib Require Import Lia Lqa Permutation Setoid Morphisms.
From Stdlib Require Import Sorted.
From Stdlib Require PrimFloat FloatOps SpecFloat Uint63.
Import ListNotations.

Local Close Scope Q_scope.
Local Open Scope nat_scope.
Local Open Scope list_scope.
Local Open Scope string_scope.

(* ================================================================== *)
(** ** Python strings *)

Module PyStr.

(** [c.isspace()] for an ASCII character: TAB..CR, FS..US and SPACE. *)
Definition is_space (c : ascii) : bool :=
  let n := nat_of_ascii c in
  (((9 <=? n) && (n <=? 13)) || ((28 <=? n) && (n <=? 32)))%nat.

Definition upper_char (c : ascii) : ascii :=
  let n := nat_of_ascii c in
  if ((97 <=? n) && (n <=? 122))%nat then ascii_of_nat (n - 32) else c.

Definition lower_char (c : ascii) : ascii :=
  let n := nat_of_ascii c in
  if ((65 <=? n) && (n <=? 90))%nat then ascii_of_nat (n + 32) else c.

(** [s.upper()], [s.lower()] *)
Fixpoint upper (s : string) : string :=
  match s with
  | EmptyString => EmptyString
  | String c s' => String (upper_char c) (upper s')
  end.

Fixpoint lower (s : string) : string :=
  match s with
  | EmptyString => EmptyString
  | String c s' => String (lower_char c) (lower s')
  end.

Fixpoint lstrip (s : string) : string :=
  match s with
  | EmptyString => EmptyString
  | String c s' => if is_space c then lstrip s' else s
  end.

Fixpoint rstrip (s : string) : string :=
  match s with
  | EmptyString => EmptyString
  | String c s' =>
      match rstrip s' with
      | EmptyString => if is_space c then EmptyString else String c EmptyString
      | r => String c r
      end
  end.

(** [s.strip()] *)
Definition strip (s : string) : string := rstrip (lstrip s).

(** [sub in s] *)
Fixpoint contains (sub s : string) : bool :=
  prefix sub s ||
  match s with
  | EmptyString => false
  | String _ s' => contains sub s'
  end.

(** [s.split(sep)] for a one-character separator *)
Fixpoint split (sep : ascii) (s : string) : list string :=
  match s with
  | EmptyString => [EmptyString]
  | String c s' =>
      if Ascii.eqb c sep then EmptyString :: split sep s'
      else match split sep s' with
           | [] => [String c EmptyString]
           | h :: t => String c h :: t
           end
  end.

(** no character of [s] is [sep] *)
Fixpoint free_of (sep : ascii) (s : string) : bool :=
  match s with
  | EmptyString => true
  | String c s' => negb (Ascii.eqb c sep) && free_of sep s'
  end.

(** a string that does not start with a blank *)
Definition starts_clean (s : string) : bool :=
  match s with
  | EmptyString => true
  | String c _ => negb (is_space c)
  end.

End PyStr.

(* ================================================================== *)
(** ** Exact two-decimal rounding *)

Module Num.
Local Open Scope Q_scope.

Definition Qltb (x y : Q) : bool :=
  match x ?= y with Lt => true | _ => false end.

(** The nearest integer, a tie going to the even neighbour: what Python's
    [round] and numpy's [rint] compute on an exact value. *)
Definition rint (q : Q) : Z :=
  let f := Qfloor q in
  match ((q - inject_Z f) ?= (1 # 2))%Q with
  | Lt => f
  | Gt => (f + 1)%Z
  | Eq => if Z.even f then f else (f + 1)%Z
  end.

(** Rounding to two decimals of an exact value: what [round(x, 2)] and
    [Series.round(2)] both give in exact arithmetic.  On doubles the two
    differ, see [F64]. *)
Definition round2 (x : Q) : Q := Qmake (rint (x * 100)) 100.

(** [sum] of a numeric column *)
Definition Qsum (l : list Q) : Q := fold_right Qplus 0 l.


End Num.

Import PyStr Num.

(* ================================================================== *)
(** ** Data model *)

(** A scalar handed to [clean_str].  Every column of the program is read
    with [dtype=str], so a cell is a string or missing; integers and
    booleans are kept for the generality of the helper (floats other than
    NaN are not modelled). *)
Inductive scalar : Type :=
| PyNone
| PyNaN
| PyStr (s : string)
| PyInt (z : Z)
| PyBool (b : bool).

(** [pd.isna(val)] *)
Definition isna (val : scalar) : bool :=
  match val with
  | PyNone | PyNaN => true
  | _ => false
  end.

(** [val == ""] *)
Definition is_empty_str (val : scalar) : bool :=
  match val with
  | PyStr s => String.eqb s EmptyString
  | _ => false
  end.

(** [str(val)] *)
Definition py_str (val : scalar) : string :=
  match val with
  | PyNone => "None"
  | PyNaN => "nan"
  | PyStr s => s
  | PyInt z => NilZero.string_of_int (Z.to_int z)
  | PyBool true => "True"
  | PyBool false => "False"
  end.

(** A row of a mapping DataFrame after [normalize_mapping_headers] and the
    per-column [astype(str).str.strip()]: one text cell under each
    normalised header the program reads.  Each table is read only under
    its own headers. *)
Module Mapping.
Record row : Type := mk {
  GL_Account : string;
  EXTC : string;
  MainAccount : string;
  AccountType : string;
  DTV_Main_Account : string;
  DTV_Sub_Account : string;
  ATT_Company : string;
  DTV_Company : string;
  DTV_Cost_Center : string;
  RCC : string
}.
End Mapping.

(** An uploaded mapping text file: its name and its parsed frame. *)
Record MappingFile : Type := {
  name : string;
  frame : list Mapping.row
}.

(** The product sheet as read by [pd.read_excel(..., dtype=str)]: its
    stripped headers and, per row, the cells under the two expected
    headers (an empty cell is missing). *)
Module Sheet.
Record row : Type := mk {
  ATT_SLS_PRD_ID : option string;
  FIN_PRD_CD : option string
}.
Record t : Type := {
  columns : list string;
  rows : list row
}.
End Sheet.

(** A row of the cleaned product frame. *)
Module Prod.
Record row : Type := mk {
  ATT_SLS_PRD_ID : string;
  FIN_PRD_CD : string
}.
End Prod.

(** A row of [core_df]: the 19 positional columns, text already filled
    and stripped, [Amount] already coerced to a number. *)
Module Core.
Record row : Type := mk {
  Record_Type : string;
  Company_Code : string;
  Transaction_Source : string;
  Transaction_Type : string;
  Transaction_Date : string;
  Accounting_Period : string;
  Location_Code : string;
  RCO : string;
  RCC : string;
  GL_Account : string;
  Reference_Number : string;
  Activity_Code : string;
  EXTC : string;
  Journal_Categories : string;
  Amount : Q;
  Product_Code : string;
  Currency : string;
  Stat : string;
  Expenditure_comment : string
}.
End Core.

(** A row of the frame returned by [transform_data]: the untouched input
    columns ([src]) and every column the function adds or overwrites. *)
Module Out.
Record row : Type := mk {
  src : Core.row;
  GL_CLEAN : string;
  EXTC_CLEAN : string;
  COMP_CLEAN : string;
  RCC : string;
  RCO : string;
  DTV_Main_Account : string;
  DTV_Sub_Account : string;
  AccountType_Code : string;
  AccountType : string;
  DTV_Company : string;
  DTV_Cost_Center : string;
  Product_Code : string;
  FIN_PRD_CD : option string;
  Product : string;
  Debit : Q;
  Credit : Q;
  Amount : Q;
  Intercompany : string;
  TaxJurisdiction : string;
  Reserved1 : string;
  Reserved2 : string;
  Account : string
}.
End Out.

(** A row of the grouped summary. *)
Module Summary.
Record row : Type := mk {
  DTV_Company : string;
  DTV_Main_Account : string;
  AccountType : string;
  DTV_Sub_Account : string;
  DTV_Cost_Center : string;
  FIN_PRD_CD : option string;
  Debit : Q;
  Credit : Q;
  Account : option string
}.
End Summary.

(** The five rule frames and the product frame handed to
    [transform_data]. *)
Record Tables : Type := {
  sam_df : list Mapping.row;
  mam_df : list Mapping.row;
  ma_df : list Mapping.row;
  company_df : list Mapping.row;
  ccm_df : list Mapping.row;
  product_df : list Prod.row
}.

(** ** Python dictionaries with text keys *)

Definition dict : Type := list (string * string).

(** [d[k] = v]: an existing key keeps its position and takes the new value *)
Fixpoint dict_set (d : dict) (k v : string) : dict :=
  match d with
  | [] => [(k, v)]
  | (k', v') :: d' =>
      if String.eqb k' k then (k', v) :: d' else (k', v') :: dict_set d' k v
  end.

(** [dict(zip(ks, vs))] *)
Definition dict_zip (ks vs : list string) : dict :=
  fold_left (fun d kv => dict_set d (fst kv) (snd kv)) (combine ks vs) [].

(** [d.get(k)]; [Series.map(d)] yields a missing cell on [None] *)
Fixpoint dict_get (d : dict) (k : string) : option string :=
  match d with
  | [] => None
  | (k', v) :: d' => if String.eqb k' k then Some v else dict_get d' k
  end.

(** [fillna(v)] on one cell *)
Definition fillna (v : string) (c : option string) : string :=
  match c with
  | Some s => s
  | None => v
  end.

(** [a + b] on two cells of object columns: a missing operand gives a
    missing result *)
Definition cell_add (a b : option string) : option string :=
  match a, b with
  | Some x, Some y => Some (x ++ y)
  | _, _ => None
  end.

(* ================================================================== *)
(** ** Helpers *)

Definition ACCOUNT_TYPE_MAP : dict :=
  [("L", "Liability"); ("R", "Revenue"); ("O", "Other");
   ("A", "Asset"); ("E", "Expense")].

Definition clean_str (val : scalar) : string :=
  if isna val || is_empty_str val then EmptyString
  else upper (strip (py_str val)).

(* ================================================================== *)
(** ** Extraction *)

Inductive exn : Type :=
| ValueError (msg : string).

Definition missing_mapping_msg : string :=
  "Missing one or more mapping files: sam, mam, ma, company, ccm".

(** The five frame variables of [extract_data], all [None] at first. *)
Record Slots : Type := {
  slot_sam : option (list Mapping.row);
  slot_mam : option (list Mapping.row);
  slot_ma : option (list Mapping.row);
  slot_company : option (list Mapping.row);
  slot_ccm : option (list Mapping.row)
}.

Definition no_slots : Slots :=
  {| slot_sam := None; slot_mam := None; slot_ma := None;
     slot_company := None; slot_ccm := None |}.

(** One turn of the loop over [mapping_files]: the frame goes to the
    first category whose tag occurs in the lower-cased file name; a file
    of no category is skipped with a notice. *)
Definition assign_file (st : Slots * list string) (f : MappingFile)
  : Slots * list string :=
  let '(s, notices) := st in
  let fname := lower (name f) in
  let temp_df := Some (frame f) in
  if contains "sam" fname then
    ({| slot_sam := temp_df; slot_mam := slot_mam s; slot_ma := slot_ma s;
        slot_company := slot_company s; slot_ccm := slot_ccm s |}, notices)
  else if contains "mam" fname then
    ({| slot_sam := slot_sam s; slot_mam := temp_df; slot_ma := slot_ma s;
        slot_company := slot_company s; slot_ccm := slot_ccm s |}, notices)
  else if contains "ma" fname then
    ({| slot_sam := slot_sam s; slot_mam := slot_mam s; slot_ma := temp_df;
        slot_company := slot_company s; slot_ccm := slot_ccm s |}, notices)
  else if contains "company" fname then
    ({| slot_sam := slot_sam s; slot_mam := slot_mam s; slot_ma := slot_ma s;
        slot_company := temp_df; slot_ccm := slot_ccm s |}, notices)
  else if contains "ccm" fname then
    ({| slot_sam := slot_sam s; slot_mam := slot_mam s; slot_ma := slot_ma s;
        slot_company := slot_company s; slot_ccm := temp_df |}, notices)
  else
    (s, app notices [append "Skipped mapping file (unrecognized name): " (name f)]).

Definition load_mapping_files (mapping_files : list MappingFile)
  : Slots * list string :=
  fold_left assign_file mapping_files (no_slots, []).

(** [extract_data]: the rows of record type DTL and the five frames, or
    the [ValueError] raised when a frame variable is still [None].  The
    frames come back in the order of the [return] statement. *)
Definition extract_data (csv_file : list Core.row)
    (mapping_files : list MappingFile)
  : exn + (list Core.row * list Mapping.row * list Mapping.row *
           list Mapping.row * list Mapping.row * list Mapping.row) :=
  let core_df :=
    filter (fun r => String.eqb (strip (Core.Record_Type r)) "DTL") csv_file in
  match load_mapping_files mapping_files with
  | ({| slot_sam := Some sam; slot_mam := Some mam; slot_ma := Some ma;
        slot_company := Some company; slot_ccm := Some ccm |}, _) =>
      inr (core_df, sam, mam, ma, company, ccm)
  | _ => inl (ValueError missing_mapping_msg)
  end.

(** [repr] of a list of plain header names *)
Definition py_repr_list (l : list string) : string :=
  "[" ++ String.concat ", " (map (fun c => "'" ++ c ++ "'") l) ++ "]".

(** [astype(str)] on one cell: a missing cell prints as [nan] *)
Definition astype_str (c : option string) : string :=
  match c with
  | Some s => s
  | None => "nan"
  end.

(** [drop_duplicates(subset=["ATT_SLS_PRD_ID"], keep="first")] *)
Fixpoint drop_duplicates (seen : list string) (l : list Prod.row)
  : list Prod.row :=
  match l with
  | [] => []
  | r :: t =>
      if existsb (String.eqb (Prod.ATT_SLS_PRD_ID r)) seen
      then drop_duplicates seen t
      else r :: drop_duplicates (Prod.ATT_SLS_PRD_ID r :: seen) t
  end.

Definition load_product_mapping (product_file : Sheet.t) : exn + list Prod.row :=
  let cols := map strip (Sheet.columns product_file) in
  if negb (existsb (String.eqb "ATT_SLS_PRD_ID") cols)
     || negb (existsb (String.eqb "FIN_PRD_CD") cols)
  then inl (ValueError
    ("Product mapping sheet must contain columns: ATT_SLS_PRD_ID, FIN_PRD_CD. Found: "
       ++ py_repr_list cols))
  else
    let prod_df :=
      map (fun r =>
             Prod.mk (upper (strip (astype_str (Sheet.ATT_SLS_PRD_ID r))))
                     (upper (strip (astype_str (Sheet.FIN_PRD_CD r)))))
          (Sheet.rows product_file) in
    inr (drop_duplicates [] prod_df).

(* ================================================================== *)
(** ** Mapping helper *)

(** [EXTC_CLEAN] of a mapping row: the marker [*] is kept as it is. *)
Definition extc_clean (x : string) : string :=
  if String.eqb (strip x) "*" then "*" else clean_str (PyStr x).

(** [mapping_df[(GL_CLEAN == gl_val) & (EXTC_CLEAN == etc_val)]] *)
Definition select (mapping_df : list Mapping.row) (gl_val etc_val : string)
  : list Mapping.row :=
  filter (fun m =>
            String.eqb (clean_str (PyStr (Mapping.GL_Account m))) gl_val
            && String.eqb (extc_clean (Mapping.EXTC m)) etc_val)
         mapping_df.

(** The body of the loop of [map_with_wildcard_clean] for one pair
    [(gl_val, etc_val)]. *)
Definition match_one (mapping_df : list Mapping.row)
    (map_col_name : Mapping.row -> string) (default_val : string)
    (gl_val etc_val : string) : string :=
  let match_ := select mapping_df gl_val etc_val in
  let match_ :=
    match match_ with
    | [] => select mapping_df gl_val "*"
    | _ :: _ => match_
    end in
  match match_ with
  | m :: _ => map_col_name m
  | [] => default_val
  end.

Definition map_with_wildcard_clean {A : Type} (df : list A)
    (mapping_df : list Mapping.row) (df_gl_col df_extc_col : A -> string)
    (map_col_name : Mapping.row -> string) (default_val : string)
  : list string :=
  map (fun r => match_one mapping_df map_col_name default_val
                  (clean_str (PyStr (df_gl_col r)))
                  (clean_str (PyStr (df_extc_col r))))
      df.

(* ================================================================== *)
(** ** Transformation *)

Definition default_val : string := "000000".

Definition ma_map_full (t : Tables) : dict :=
  dict_zip (map (fun m => clean_str (PyStr (Mapping.MainAccount m))) (ma_df t))
           (map Mapping.AccountType (ma_df t)).

Definition company_map (t : Tables) : dict :=
  dict_zip (map (fun m => clean_str (PyStr (Mapping.ATT_Company m))) (company_df t))
           (map Mapping.DTV_Company (company_df t)).

Definition ccm_map (t : Tables) : dict :=
  dict_zip (map (fun m => strip (Mapping.RCC m) ++ "|" ++ strip (Mapping.AccountType m))
                (ccm_df t))
           (map Mapping.DTV_Cost_Center (ccm_df t)).

Definition prod_map (t : Tables) : dict :=
  dict_zip (map Prod.ATT_SLS_PRD_ID (product_df t))
           (map Prod.FIN_PRD_CD (product_df t)).

(** [.replace(["", "UNMATCHED", "MISSING"], "0000")] on one cell *)
Definition replace_placeholders (s : string) : string :=
  if String.eqb s EmptyString || String.eqb s "UNMATCHED" || String.eqb s "MISSING"
  then "0000" else s.

Definition debit_of (x : Q) : Q := if Qltb 0 x then round2 x else 0%Q.
Definition credit_of (x : Q) : Q := if Qltb x 0 then round2 (Qabs x) else 0%Q.

(** The composite account of a detail row. *)
Definition compose (company main sub cost_center intercompany product
                    tax reserved1 reserved2 : string) : string :=
  company ++ "*" ++ main ++ "*" ++ sub ++ "*" ++ cost_center ++ "*" ++
  intercompany ++ "*" ++ product ++ "*" ++ tax ++ "*" ++ reserved1 ++ "*" ++
  reserved2.

(** Every column statement of [transform_data] up to [Account], on one
    row. *)
Definition transform_row (t : Tables) (r : Core.row) : Out.row :=
  let GL_CLEAN := clean_str (PyStr (Core.GL_Account r)) in
  let EXTC_CLEAN := clean_str (PyStr (Core.EXTC r)) in
  let COMP_CLEAN := clean_str (PyStr (Core.Company_Code r)) in
  let RCC := strip (Core.RCC r) in
  let RCO := strip (Core.RCO r) in
  let DTV_Main_Account :=
    match_one (mam_df t) Mapping.DTV_Main_Account default_val
      (clean_str (PyStr GL_CLEAN)) (clean_str (PyStr EXTC_CLEAN)) in
  let DTV_Sub_Account :=
    match_one (sam_df t) Mapping.DTV_Sub_Account default_val
      (clean_str (PyStr GL_CLEAN)) (clean_str (PyStr EXTC_CLEAN)) in
  let AccountType_Code :=
    fillna "UNKNOWN"
      (dict_get (ma_map_full t) (clean_str (PyStr DTV_Main_Account))) in
  let AccountType :=
    fillna AccountType_Code (dict_get ACCOUNT_TYPE_MAP AccountType_Code) in
  let DTV_Company := fillna "NULL" (dict_get (company_map t) COMP_CLEAN) in
  let cost_key := strip RCC ++ "|" ++ strip AccountType_Code in
  let DTV_Cost_Center := fillna "000000" (dict_get (ccm_map t) cost_key) in
  let Product_Code := upper (strip (Core.Product_Code r)) in
  let FIN_PRD_CD := dict_get (prod_map t) Product_Code in
  let Product := replace_placeholders (fillna "0000" FIN_PRD_CD) in
  let Debit := debit_of (Core.Amount r) in
  let Credit := credit_of (Core.Amount r) in
  let Amount := round2 (Core.Amount r) in
  let Intercompany := "0000" in
  let TaxJurisdiction := "000" in
  let Reserved1 := "00000" in
  let Reserved2 := "00000" in
  let Account :=
    compose DTV_Company DTV_Main_Account DTV_Sub_Account DTV_Cost_Center
            Intercompany Product TaxJurisdiction Reserved1 Reserved2 in
  Out.mk r GL_CLEAN EXTC_CLEAN COMP_CLEAN RCC RCO DTV_Main_Account
         DTV_Sub_Account AccountType_Code AccountType DTV_Company
         DTV_Cost_Center Product_Code FIN_PRD_CD Product Debit Credit Amount
         Intercompany TaxJurisdiction Reserved1 Reserved2 Account.

(** The mask of the unmatched frame. *)
Definition is_unmatched (r : Out.row) : bool :=
  String.eqb (Out.DTV_Main_Account r) "000000"
  || String.eqb (Out.DTV_Sub_Account r) "000000"
  || String.eqb (Out.DTV_Company r) "NULL"
  || match Out.FIN_PRD_CD r with None => true | Some _ => false end.

(** *** Grouping *)

Definition key : Type :=
  (string * string * string * string * string * option string)%type.

(** the [groupby] columns, in their order *)
Definition group_key (r : Out.row) : key :=
  (Out.DTV_Company r, Out.DTV_Main_Account r, Out.AccountType r,
   Out.DTV_Sub_Account r, Out.DTV_Cost_Center r, Out.FIN_PRD_CD r).

Definition key_eq_dec (x y : key) : {x = y} + {x <> y}.
Proof. repeat first [apply string_dec | decide equality]. Defined.

Arguments key_eq_dec : simpl never.

Definition same_key (k : key) (r : Out.row) : bool :=
  if key_eq_dec (group_key r) k then true else false.

Definition cmp_then (c d : comparison) : comparison :=
  match c with
  | Eq => d
  | _ => c
  end.

(** a missing cell sorts after every text, as [groupby(dropna=False)]
    places it *)
Definition cell_compare (a b : option string) : comparison :=
  match a, b with
  | Some x, Some y => String.compare x y
  | Some _, None => Lt
  | None, Some _ => Gt
  | None, None => Eq
  end.

Definition key_compare (k1 k2 : key) : comparison :=
  let '(c1, m1, t1, s1, cc1, p1) := k1 in
  let '(c2, m2, t2, s2, cc2, p2) := k2 in
  cmp_then (String.compare c1 c2)
    (cmp_then (String.compare m1 m2)
       (cmp_then (String.compare t1 t2)
          (cmp_then (String.compare s1 s2)
             (cmp_then (String.compare cc1 cc2) (cell_compare p1 p2))))).

Definition key_leb (k1 k2 : key) : bool :=
  match key_compare k1 k2 with
  | Gt => false
  | _ => true
  end.

Fixpoint insert_key (k : key) (l : list key) : list key :=
  match l with
  | [] => [k]
  | h :: t => if key_leb k h then k :: l else h :: insert_key k t
  end.

(** the sorted group keys ([groupby] sorts by default) *)
Definition sort_keys (l : list key) : list key := fold_right insert_key [] l.

Definition group_keys (df : list Out.row) : list key :=
  sort_keys (nodup key_eq_dec (map group_key df)).

Definition members (df : list Out.row) (k : key) : list Out.row :=
  filter (same_key k) df.

(** One row of [summary]: the sums of the group, rounded, and the
    account text built from the key columns. *)
Definition summary_row (df : list Out.row) (k : key) : Summary.row :=
  let '(company, main, acc_type, sub, cost_center, fin) := k in
  let Debit := round2 (Qsum (map Out.Debit (members df k))) in
  let Credit := round2 (Qsum (map Out.Credit (members df k))) in
  let Account :=
    cell_add
      (cell_add
         (Some (company ++ "*" ++ main ++ "*" ++ sub ++ "*" ++ acc_type ++ "*"
                  ++ cost_center ++ "*0000*"))
         fin)
      (Some "*000*00000*00000") in
  Summary.mk company main acc_type sub cost_center fin Debit Credit Account.

Definition summarize (df : list Out.row) : list Summary.row :=
  map (summary_row df) (group_keys df).

(** [transform_data]: the detail frame, the summary and the unmatched
    frame. *)
Definition transform_data (t : Tables) (df : list Core.row)
  : list Out.row * list Summary.row * list Out.row :=
  let df' := map (transform_row t) df in
  let unmatched := filter is_unmatched df' in
  let summary := summarize df' in
  (df', summary, unmatched).

(* ================================================================== *)
(** ** Results and driver *)

(** the two totals of [load_summary] *)
Definition total_debit (df : list Out.row) : Q := Qsum (map Out.Debit df).
Definition total_credit (df : list Out.row) : Q := Qsum (map Out.Credit df).

Record Report : Type := {
  detail : list Out.row;
  grouped : list Summary.row;
  unmatched_records : list Out.row;
  grand_debit : Q;
  grand_credit : Q
}.

Inductive Outcome : Type :=
| AwaitingUploads
| Failed (e : exn)
| Completed (rep : Report).

(** The end of [main]: nothing runs until the three uploads are there;
    an exception of any step is shown as one error. *)
Definition run (csv_file : option (list Core.row))
    (mapping_files : list MappingFile) (product_file : option Sheet.t)
  : Outcome :=
  match csv_file, mapping_files, product_file with
  | Some csv, _ :: _, Some sheet =>
      match extract_data csv mapping_files with
      | inl e => Failed e
      | inr (df, sam, mam, ma, company, ccm) =>
          match load_product_mapping sheet with
          | inl e => Failed e
          | inr prod =>
              let t := {| sam_df := sam; mam_df := mam; ma_df := ma;
                          company_df := company; ccm_df := ccm;
                          product_df := prod |} in
              let '(df', summary, unmatched) := transform_data t df in
              Completed {| detail := df'; grouped := summary;
                           unmatched_records := unmatched;
                           grand_debit := total_debit df';
                           grand_credit := total_credit df' |}
          end
      end
  | _, _, _ => AwaitingUploads
  end.

(* ================================================================== *)
(** ** Vocabulary of the statements *)

(** the normalised key of a rule row and of a transaction row *)
Definition rule_key (m : Mapping.row) : string * string :=
  (clean_str (PyStr (Mapping.GL_Account m)), extc_clean (Mapping.EXTC m)).

Definition record_key (r : Core.row) : string * string :=
  (clean_str (PyStr (Core.GL_Account r)), clean_str (PyStr (Core.EXTC r))).

Definition has_key (k : string * string) (m : Mapping.row) : bool :=
  String.eqb (fst (rule_key m)) (fst k) && String.eqb (snd (rule_key m)) (snd k).

(** Exact row first, wildcard row of the same GL account next, the
    default last; [find] takes the first row among duplicates. *)
Definition resolves_by_precedence (tbl : list Mapping.row)
    (col : Mapping.row -> string) (k : string * string) (res : string) : Prop :=
  match find (has_key k) tbl with
  | Some m => res = col m
  | None =>
      match find (has_key (fst k, "*")) tbl with
      | Some w => res = col w
      | None => res = "000000"
      end
  end.

(** the key columns of a summary row *)
Definition summary_key (g : Summary.row) : key :=
  (Summary.DTV_Company g, Summary.DTV_Main_Account g, Summary.AccountType g,
   Summary.DTV_Sub_Account g, Summary.DTV_Cost_Center g, Summary.FIN_PRD_CD g).

(** the five text segments of a detail row that come from lookups *)
Definition segments_free (r : Out.row) : bool :=
  free_of "*" (Out.DTV_Company r) && free_of "*" (Out.DTV_Main_Account r)
  && free_of "*" (Out.DTV_Sub_Account r) && free_of "*" (Out.DTV_Cost_Center r)
  && free_of "*" (Out.Product r).

(** the rule categories of [extract_data] and their frame variables *)
Inductive category : Type := Sam | Mam | Ma | Company | Ccm.

Definition slot (c : category) (s : Slots) : option (list Mapping.row) :=
  match c with
  | Sam => slot_sam s
  | Mam => slot_mam s
  | Ma => slot_ma s
  | Company => slot_company s
  | Ccm => slot_ccm s
  end.

Definition is_absent (mapping_files : list MappingFile) (c : category) : bool :=
  match slot c (fst (load_mapping_files mapping_files)) with
  | None => true
  | Some _ => false
  end.

Definition absent_categories (mapping_files : list MappingFile) : list category :=
  filter (is_absent mapping_files) [Sam; Mam; Ma; Company; Ccm].

(** *** The claims in their own words, where the code is compared to them *)


(** The nine segments with the product segment being the looked-up code,
    or [0000] when the lookup found nothing. *)
Definition stated_segments (r : Out.row) : list string :=
  [Out.DTV_Company r; Out.DTV_Main_Account r; Out.DTV_Sub_Account r;
   Out.DTV_Cost_Center r; "0000"; fillna "0000" (Out.FIN_PRD_CD r);
   "000"; "00000"; "00000"].

(** An error that names the missing category: the absent categories can
    be read off the error. *)
Definition error_names_missing (decode : exn -> list category) : Prop :=
  forall csv mapping_files sheet e,
    run (Some csv) mapping_files (Some sheet) = Failed e ->
    absent_categories mapping_files <> [] ->
    decode e = absent_categories mapping_files.

(** Group totals from the unrounded amounts, split by sign, summed and
    rounded once. *)
Definition unrounded_debit (x : Q) : Q := if Qltb 0 x then x else 0%Q.
Definition unrounded_credit (x : Q) : Q := if Qltb x 0 then Qabs x else 0%Q.

Definition stated_group_debit (df : list Out.row) (k : key) : Q :=
  round2 (Qsum (map (fun r => unrounded_debit (Core.Amount (Out.src r)))
                    (members df k))).

Definition stated_group_credit (df : list Out.row) (k : key) : Q :=
  round2 (Qsum (map (fun r => unrounded_credit (Core.Amount (Out.src r)))
                    (members df k))).

(** The ten segments of a summary account. *)
Definition ten_segments (g : Summary.row) (fin : string) : list string :=
  [Summary.DTV_Company g; Summary.DTV_Main_Account g; Summary.DTV_Sub_Account g;
   Summary.AccountType g; Summary.DTV_Cost_Center g; "0000"; fin;
   "000"; "00000"; "00000"].

(** *** Sample data *)

Definition rule (gl extc target : string) : Mapping.row :=
  Mapping.mk gl extc EmptyString EmptyString target target
             EmptyString EmptyString EmptyString EmptyString.

Definition type_rule (main acc_type : string) : Mapping.row :=
  Mapping.mk EmptyString EmptyString main acc_type EmptyString EmptyString
             EmptyString EmptyString EmptyString EmptyString.

Definition company_rule (att dtv : string) : Mapping.row :=
  Mapping.mk EmptyString EmptyString EmptyString EmptyString EmptyString
             EmptyString att dtv EmptyString EmptyString.

Definition cost_rule (rcc acc_type cost_center : string) : Mapping.row :=
  Mapping.mk EmptyString EmptyString EmptyString acc_type EmptyString
             EmptyString EmptyString EmptyString cost_center rcc.

Definition dtl (company gl extc rcc : string) (amount : Q) (product : string)
  : Core.row :=
  Core.mk "DTL" company EmptyString EmptyString EmptyString EmptyString
          EmptyString EmptyString rcc gl EmptyString EmptyString extc
          EmptyString amount product EmptyString EmptyString EmptyString.

(** The example tables of the specification, with a product sheet that
    carries a placeholder code. *)
Definition sample_tables : Tables :=
  {| sam_df := [rule "4000" "*" "200000"];
     mam_df := [rule "4000" "10" "100100"; rule "4000" "*" "100999"];
     ma_df := [type_rule "100100" "R"];
     company_df := [company_rule "c1" "D1"];
     ccm_df := [cost_rule "r1" "R" "777777"];
     product_df := [Prod.mk "P1" "F1"; Prod.mk "P2" "MISSING"] |}.

Definition file (n : string) : MappingFile := {| name := n; frame := [] |}.

Definition sample_sheet : Sheet.t :=
  {| Sheet.columns := ["ATT_SLS_PRD_ID"; "FIN_PRD_CD"];
     Sheet.rows := [Sheet.mk (Some "p1") (Some "f1")] |}.

(* ================================================================== *)
(** ** The rest of the program *)

(** *** Header normalisation *)

(** [s.replace(" ", "")] *)
Fixpoint remove_spaces (s : string) : string :=
  match s with
  | EmptyString => EmptyString
  | String c s' =>
      if Ascii.eqb c " " then remove_spaces s' else String c (remove_spaces s')
  end.

(** The entry of [col_rename] for one (stripped) header, if the loop of
    [normalize_mapping_headers] makes one: the first tag that occurs in the
    lower-cased, space-free header decides. *)
Definition col_rename (col : string) : option string :=
  let col_low := remove_spaces (lower col) in
  if contains "glaccount" col_low then Some "GL Account"
  else if contains "etc" col_low || contains "extc" col_low then Some "EXTC"
  else if contains "mainaccount" col_low then Some "MainAccount"
  else if contains "accounttype" col_low then Some "AccountType"
  else if contains "dtv_main_account" col_low then Some "DTV_Main_Account"
  else if contains "dtv_sub_account" col_low then Some "DTV_Sub_Account"
  else if contains "att_company" col_low then Some "ATT_Company"
  else if contains "dtv_company" col_low then Some "DTV_Company"
  else if contains "dtv_cost_center" col_low then Some "DTV_Cost_Center"
  else if contains "rcc" col_low then Some "RCC"
  else if contains "rco" col_low then Some "RCO"
  else None.

(** [normalize_mapping_headers] on the headers of a frame: strip, then
    rename through [col_rename]. *)
Definition normalize_mapping_headers (columns : list string) : list string :=
  map (fun col => let col := strip col in fillna col (col_rename col)) columns.

(** the headers the renaming can produce *)
Definition canonical_headers : list string :=
  ["GL Account"; "EXTC"; "MainAccount"; "AccountType"; "DTV_Main_Account";
   "DTV_Sub_Account"; "ATT_Company"; "DTV_Company"; "DTV_Cost_Center";
   "RCC"; "RCO"].

(** *** The category of a mapping file *)

(** The branch of the [if]/[elif] chain of [extract_data] that a file
    name takes. *)
Definition file_category (f : MappingFile) : option category :=
  let fname := lower (name f) in
  if contains "sam" fname then Some Sam
  else if contains "mam" fname then Some Mam
  else if contains "ma" fname then Some Ma
  else if contains "company" fname then Some Company
  else if contains "ccm" fname then Some Ccm
  else None.

Definition is_category (c : category) (f : MappingFile) : bool :=
  match file_category f, c with
  | Some Sam, Sam | Some Mam, Mam | Some Ma, Ma
  | Some Company, Company | Some Ccm, Ccm => true
  | _, _ => false
  end.

Definition is_recognized (f : MappingFile) : bool :=
  match file_category f with
  | Some _ => true
  | None => false
  end.

(** the notice for a skipped file *)
Definition skip_notice (f : MappingFile) : string :=
  "Skipped mapping file (unrecognized name): " ++ name f.

(** the last element of a list that satisfies a test *)
Definition find_last {A : Type} (p : A -> bool) (l : list A) : option A :=
  find p (rev l).

(** *** Reading the transaction file *)

Section Reading.

(** [pd.to_numeric] on one text cell with [errors="coerce"]: the number
    read, or nothing where pandas gives NaN. *)
Variable to_numeric : string -> option Q.

(** [df.iloc[:, idx].fillna("").astype(str).str.strip()] on one row; a
    position past the width of the file is a padded, empty column. *)
Definition cell_at (row : list (option string)) (idx : nat) : string :=
  strip (fillna EmptyString
           (match nth_error row idx with
            | Some c => c
            | None => Some EmptyString
            end)).

(** [pd.to_numeric(col.replace("", 0), errors="coerce").fillna(0)] on one
    cell *)
Definition coerce_amount (s : string) : Q :=
  if String.eqb s EmptyString then 0%Q
  else match to_numeric s with
       | Some q => q
       | None => 0%Q
       end.

(** One row of the frame that [extract_data] builds from the 19
    positions, before the rows of another record type are dropped. *)
Definition core_row (row : list (option string)) : Core.row :=
  Core.mk (cell_at row 0) (cell_at row 1) (cell_at row 2) (cell_at row 3)
          (cell_at row 4) (cell_at row 5) (cell_at row 6) (cell_at row 7)
          (cell_at row 8) (cell_at row 9) (cell_at row 10) (cell_at row 11)
          (cell_at row 12) (cell_at row 13) (coerce_amount (cell_at row 14))
          (cell_at row 15) (cell_at row 16) (cell_at row 17) (cell_at row 18).

Definition read_core (rows : list (list (option string))) : list Core.row :=
  map core_row rows.

End Reading.

(** every text column of a [core_df] row *)
Definition text_fields (r : Core.row) : list string :=
  [Core.Record_Type r; Core.Company_Code r; Core.Transaction_Source r;
   Core.Transaction_Type r; Core.Transaction_Date r; Core.Accounting_Period r;
   Core.Location_Code r; Core.RCO r; Core.RCC r; Core.GL_Account r;
   Core.Reference_Number r; Core.Activity_Code r; Core.EXTC r;
   Core.Journal_Categories r; Core.Product_Code r; Core.Currency r;
   Core.Stat r; Core.Expenditure_comment r].

(** *** The grouped download *)

(** the decimal digits of a natural number *)
Definition digits (n : Z) : string := NilZero.string_of_int (Z.to_int n).

Definition two_digits (n : Z) : string :=
  if (n <? 10)%Z then "0" ++ digits n else digits n.

(** [f"{q:.2f}"] on an exact value: sign, integer part, point and two
    decimals of the value rounded half-even. *)
Definition fmt2 (q : Q) : string :=
  let c := rint (Qabs q * 100) in
  (if Qltb q 0 then "-" else EmptyString)
  ++ digits (c / 100) ++ "." ++ two_digits (c mod 100).

(** A line of the grouped frame: the cells of a summary row with the
    debit and the credit as text. *)
Module Line.
Record row : Type := mk {
  DTV_Company : string;
  DTV_Main_Account : string;
  AccountType : string;
  DTV_Sub_Account : string;
  DTV_Cost_Center : string;
  FIN_PRD_CD : option string;
  Debit : string;
  Credit : string;
  Account : option string
}.
End Line.

(** [row[col] != 0] *)
Definition nonzero (q : Q) : bool := negb (Qeq_bool q 0).

(** [base.copy()] with the two text cells set *)
Definition line_of (g : Summary.row) (debit credit : string) : Line.row :=
  Line.mk (Summary.DTV_Company g) (Summary.DTV_Main_Account g)
          (Summary.AccountType g) (Summary.DTV_Sub_Account g)
          (Summary.DTV_Cost_Center g) (Summary.FIN_PRD_CD g)
          debit credit (Summary.Account g).

(** the lines that one summary row contributes *)
Definition lines_of (g : Summary.row) : list Line.row :=
  ((if nonzero (Summary.Debit g)
    then [line_of g (fmt2 (Summary.Debit g)) EmptyString] else [])
   ++ (if nonzero (Summary.Credit g)
       then [line_of g EmptyString (fmt2 (Summary.Credit g))] else []))%list.

Definition prepare_debit_credit_rows (summary : list Summary.row)
  : list Line.row :=
  flat_map lines_of summary.

(** [totals_row]: every cell empty but the company, the debit and the
    credit. *)
Definition totals_row (total_debit total_credit : Q) : Line.row :=
  Line.mk "TOTAL" EmptyString EmptyString EmptyString EmptyString
          (Some EmptyString) (fmt2 total_debit) (fmt2 total_credit)
          (Some EmptyString).

(** A row of the unmatched tab: the seven diagnosis columns. *)
Module Diag.
Record row : Type := mk {
  Product_Code : string;
  FIN_PRD_CD : option string;
  Product : string;
  DTV_Company : string;
  DTV_Main_Account : string;
  DTV_Sub_Account : string;
  Amount : Q
}.
End Diag.

Definition diag_of (r : Out.row) : Diag.row :=
  Diag.mk (Out.Product_Code r) (Out.FIN_PRD_CD r) (Out.Product r)
          (Out.DTV_Company r) (Out.DTV_Main_Account r)
          (Out.DTV_Sub_Account r) (Out.Amount r).

(** What [load_summary] puts on the page: the two totals, the grouped
    frame with its headers (a frame without lines has only the headers of
    the totals row, and the other cells of that row are then not part of
    it), the detail frame with the mapped product repeated, and the
    unmatched tab ([None] is the notice that every record matched). *)
Record Screen : Type := {
  shown_debit : Q;
  shown_credit : Q;
  grouped_headers : list string;
  grouped_lines : list Line.row;
  detail_lines : list (Out.row * string);
  unmatched_tab : option (list Diag.row)
}.

Definition load_summary (df : list Out.row) (summary : list Summary.row)
    (unmatched : list Out.row) : Screen :=
  let total_debit := Qsum (map Out.Debit df) in
  let total_credit := Qsum (map Out.Credit df) in
  let melted := prepare_debit_credit_rows summary in
  {| shown_debit := total_debit;
     shown_credit := total_credit;
     grouped_headers :=
       match melted with
       | [] => ["DTV_Company"; "Debit"; "Credit"]
       | _ :: _ =>
           ["DTV_Company"; "DTV_Main_Account"; "AccountType";
            "DTV_Sub_Account"; "DTV_Cost_Center"; "FIN_PRD_CD"; "Debit";
            "Credit"; "Account"]
       end;
     grouped_lines := (melted ++ [totals_row total_debit total_credit])%list;
     detail_lines := map (fun r => (r, Out.Product r)) df;
     unmatched_tab :=
       match unmatched with
       | [] => None
       | _ :: _ => Some (map diag_of unmatched)
       end |}.

(** *** The amount columns on doubles *)

(** Lines 182-184 on float64 values.  [round(x, 2)] of Python gives the
    double nearest to the exact value of [x] rounded to two decimals
    (a tie of the exact value to the even digit); [Series.round(2)] is
    numpy's: multiply by 100, round to the nearest integer (a tie to the
    even one), divide by 100, every step on doubles.  For finite values
    of magnitude below 2^51. *)
Module F64.

(** the exact value of a finite double *)
Definition exact (x : PrimFloat.float) : Q :=
  match FloatOps.Prim2SF x with
  | SpecFloat.S754_finite s m e =>
      ((if s then - (1) else 1) * inject_Z (Zpos m) * Qpower 2 e)%Q
  | _ => 0%Q
  end.

(** the double of an integer of magnitude below 2^53 *)
Definition of_Z (z : Z) : PrimFloat.float :=
  if (z <? 0)%Z
  then PrimFloat.opp (PrimFloat.of_uint63 (Uint63.of_Z (- z)))
  else PrimFloat.of_uint63 (Uint63.of_Z z).

Definition zero : PrimFloat.float := of_Z 0.
Definition hundred : PrimFloat.float := of_Z 100.

(** the double nearest to [n / d], which is how a decimal text parses *)
Definition ratio (n d : Z) : PrimFloat.float := PrimFloat.div (of_Z n) (of_Z d).

(** [round(x, 2)] on a Python float *)
Definition py_round2 (x : PrimFloat.float) : PrimFloat.float :=
  PrimFloat.div (of_Z (rint (exact x * 100))) hundred.

(** [numpy.rint] *)
Definition np_rint (x : PrimFloat.float) : PrimFloat.float :=
  of_Z (rint (exact x)).

(** [Series.round(2)] *)
Definition np_round2 (x : PrimFloat.float) : PrimFloat.float :=
  PrimFloat.div (np_rint (PrimFloat.mul x hundred)) hundred.

Definition Debit (x : PrimFloat.float) : PrimFloat.float :=
  if PrimFloat.ltb zero x then py_round2 x else zero.

Definition Credit (x : PrimFloat.float) : PrimFloat.float :=
  if PrimFloat.ltb x zero then py_round2 (PrimFloat.abs x) else zero.

Definition Amount (x : PrimFloat.float) : PrimFloat.float := np_round2 x.

End F64.

(** *** Vocabulary of the further statements *)

(** the key of a cost-center rule and of a detail row, both parts
    stripped only *)
Definition is_cost_rule (rcc code : string) (m : Mapping.row) : bool :=
  String.eqb (strip (Mapping.RCC m)) rcc
  && String.eqb (strip (Mapping.AccountType m)) code.

(** the cleaned key of a row of the product sheet *)
Definition sheet_key (r : Sheet.row) : string :=
  upper (strip (astype_str (Sheet.ATT_SLS_PRD_ID r))).

Definition sheet_value (r : Sheet.row) : string :=
  upper (strip (astype_str (Sheet.FIN_PRD_CD r))).

Definition has_product_columns (sheet : Sheet.t) : bool :=
  existsb (String.eqb "ATT_SLS_PRD_ID") (map strip (Sheet.columns sheet))
  && existsb (String.eqb "FIN_PRD_CD") (map strip (Sheet.columns sheet)).

Definition is_dtl (r : Core.row) : bool :=
  String.eqb (strip (Core.Record_Type r)) "DTL".

(** the five lookup segments of a detail row *)
Definition lookup_segments (r : Out.row) : list string :=
  [Out.DTV_Company r; Out.DTV_Main_Account r; Out.DTV_Sub_Account r;
   Out.DTV_Cost_Center r; Out.Product r].

Definition key_le (k1 k2 : key) : Prop := key_leb k1 k2 = true.



(** the label of an account type code: the entry of [ACCOUNT_TYPE_MAP],
    or the code itself *)
Definition account_type_label (code : string) : string :=
  fillna code (dict_get ACCOUNT_TYPE_MAP code).

(* ================================================================== *)
(** * Properties *)

(** ** Text helpers *)

Module PyStrFacts.
Lemma upper_char_idem c : upper_char (upper_char c) = upper_char c.
Proof. destruct c as [[] [] [] [] [] [] [] []]; reflexivity. Qed.

Lemma is_space_upper_char c : is_space (upper_char c) = is_space c.
Proof. destruct c as [[] [] [] [] [] [] [] []]; reflexivity. Qed.

Lemma upper_idem s : upper (upper s) = upper s.
Proof.
  induction s as [|c s IH]; simpl; [reflexivity|].
  now rewrite upper_char_idem, IH.
Qed.

Lemma lstrip_upper s : lstrip (upper s) = upper (lstrip s).
Proof.
  induction s as [|c s IH]; simpl; [reflexivity|].
  rewrite is_space_upper_char. destruct (is_space c); [exact IH|reflexivity].
Qed.

Lemma rstrip_upper s : rstrip (upper s) = upper (rstrip s).
Proof.
  induction s as [|c s IH]; simpl; [reflexivity|].
  rewrite IH, is_space_upper_char.
  destruct (rstrip s); simpl; [destruct (is_space c)|]; reflexivity.
Qed.

Lemma strip_upper s : strip (upper s) = upper (strip s).
Proof. unfold strip. now rewrite lstrip_upper, rstrip_upper. Qed.

Lemma rstrip_idem s : rstrip (rstrip s) = rstrip s.
Proof.
  induction s as [|c s IH]; simpl; [reflexivity|].
  destruct (rstrip s) as [|d r] eqn:E.
  - destruct (is_space c) eqn:Hc; simpl; [reflexivity|now rewrite Hc].
  - change (rstrip (String c (String d r))) with
      (match rstrip (String d r) with
       | EmptyString => if is_space c then EmptyString else String c EmptyString
       | r' => String c r'
       end).
    now rewrite IH.
Qed.

Lemma lstrip_starts_clean s : starts_clean (lstrip s) = true.
Proof.
  induction s as [|c s IH]; simpl; [reflexivity|].
  destruct (is_space c) eqn:Hc; [exact IH|simpl; now rewrite Hc].
Qed.

Lemma lstrip_fix s : starts_clean s = true -> lstrip s = s.
Proof.
  destruct s as [|c s]; simpl; [reflexivity|].
  now destruct (is_space c).
Qed.

Lemma rstrip_starts_clean s : starts_clean s = true -> starts_clean (rstrip s) = true.
Proof.
  destruct s as [|c s]; simpl; [reflexivity|].
  intros Hc. destruct (rstrip s); simpl; [|exact Hc].
  destruct (is_space c) eqn:E; [discriminate|simpl; now rewrite E].
Qed.

Lemma strip_idem s : strip (strip s) = strip s.
Proof.
  unfold strip.
  rewrite (lstrip_fix (rstrip (lstrip s))).
  - apply rstrip_idem.
  - apply rstrip_starts_clean, lstrip_starts_clean.
Qed.

Lemma split_free sep s : free_of sep s = true -> split sep s = [s].
Proof.
  induction s as [|c s IH]; simpl; [reflexivity|].
  destruct (Ascii.eqb c sep); simpl; [discriminate|].
  intros H. now rewrite (IH H).
Qed.

Lemma split_app sep a b :
  free_of sep a = true ->
  split sep (a ++ String sep b) = a :: split sep b.
Proof.
  induction a as [|c a IH]; simpl.
  - intros _. now rewrite Ascii.eqb_refl.
  - destruct (Ascii.eqb c sep); simpl; [discriminate|].
    intros H. now rewrite (IH H).
Qed.

Lemma upper_lower_char c : upper_char (lower_char c) = upper_char c.
Proof. destruct c as [[] [] [] [] [] [] [] []]; reflexivity. Qed.

Lemma is_space_lower_char c : is_space (lower_char c) = is_space c.
Proof. destruct c as [[] [] [] [] [] [] [] []]; reflexivity. Qed.

Lemma upper_lower s : upper (lower s) = upper s.
Proof.
  induction s as [|c s IH]; simpl; [reflexivity|].
  now rewrite upper_lower_char, IH.
Qed.

Lemma lstrip_lower s : lstrip (lower s) = lower (lstrip s).
Proof.
  induction s as [|c s IH]; simpl; [reflexivity|].
  rewrite is_space_lower_char. destruct (is_space c); [exact IH|reflexivity].
Qed.

Lemma rstrip_lower s : rstrip (lower s) = lower (rstrip s).
Proof.
  induction s as [|c s IH]; simpl; [reflexivity|].
  rewrite IH, is_space_lower_char.
  destruct (rstrip s); simpl; [destruct (is_space c)|]; reflexivity.
Qed.

Lemma strip_lower s : strip (lower s) = lower (strip s).
Proof. unfold strip. now rewrite lstrip_lower, rstrip_lower. Qed.

Lemma append_assoc (a b c : string) : ((a ++ b) ++ c)%string = (a ++ b ++ c)%string.
Proof. induction a as [|x a IH]; simpl; [reflexivity|now rewrite IH]. Qed.

(** turn [x ++ "*" ++ y] into [x ++ String "*" y], the shape [split_app]
    rewrites *)
Ltac fuse_separators :=
  repeat match goal with
         | |- context [(?x ++ String ?s EmptyString ++ ?y)%string] =>
             change (x ++ String s EmptyString ++ y)%string
               with (x ++ String s y)%string
         end.

End PyStrFacts.

(** ** Rounding *)

Module NumFacts.
Local Open Scope Q_scope.

#[export] Instance rint_comp : Proper (Qeq ==> eq) rint.
Proof.
  intros x y E. unfold rint.
  rewrite (Qfloor_comp _ _ E).
  now rewrite (Qcompare_comp (x - inject_Z (Qfloor y)) (y - inject_Z (Qfloor y))
                 ltac:(now rewrite E) (1 # 2) (1 # 2) ltac:(reflexivity)).
Qed.

#[export] Instance round2_comp : Proper (Qeq ==> Qeq) round2.
Proof.
  intros x y E. unfold round2.
  assert (H : x * 100 == y * 100) by now rewrite E.
  now rewrite (rint_comp _ _ H).
Qed.

Lemma Qltb_lt x y : Qltb x y = true <-> x < y.
Proof.
  unfold Qltb. rewrite Qlt_alt. destruct (x ?= y); split; congruence.
Qed.

Lemma Qltb_ge x y : Qltb x y = false <-> y <= x.
Proof.
  split; intros H.
  - apply Qnot_lt_le. intros L. apply Qltb_lt in L. congruence.
  - destruct (Qltb x y) eqn:E; [|reflexivity].
    apply Qltb_lt in E. exfalso. exact (Qlt_not_le _ _ E H).
Qed.

Lemma floor_unique q z :
  inject_Z z <= q -> q < inject_Z z + 1 -> Qfloor q = z.
Proof.
  intros Hlo Hhi.
  pose proof (Qfloor_le q) as L. pose proof (Qlt_floor q) as U.
  rewrite inject_Z_plus in U. change (inject_Z 1) with 1 in U.
  assert (A : inject_Z z < inject_Z (Qfloor q) + 1) by lra.
  assert (B : inject_Z (Qfloor q) < inject_Z z + 1) by lra.
  change 1 with (inject_Z 1) in A, B.
  rewrite <- inject_Z_plus in A, B.
  rewrite <- Zlt_Qlt in A, B. lia.
Qed.

Lemma rint_below q z :
  inject_Z z <= q -> q < inject_Z z + (1 # 2) -> rint q = z.
Proof.
  intros Hlo Hhi. unfold rint.
  rewrite (floor_unique q z) by lra.
  assert (L : q - inject_Z z < 1 # 2) by lra.
  rewrite Qlt_alt in L. now rewrite L.
Qed.

Lemma rint_above q z :
  inject_Z z + (1 # 2) < q -> q < inject_Z z + 1 -> rint q = (z + 1)%Z.
Proof.
  intros Hlo Hhi. unfold rint.
  rewrite (floor_unique q z) by lra.
  assert (L : q - inject_Z z > 1 # 2) by lra.
  rewrite Qgt_alt in L. now rewrite L.
Qed.

Lemma rint_tie q z :
  q == inject_Z z + (1 # 2) -> rint q = if Z.even z then z else (z + 1)%Z.
Proof.
  intros E. unfold rint.
  rewrite (floor_unique q z) by lra.
  assert (L : q - inject_Z z == 1 # 2) by lra.
  rewrite Qeq_alt in L. now rewrite L.
Qed.


Lemma rint_opp q : rint (- q) = (- rint q)%Z.
Proof.
  pose proof (Qfloor_le q) as L. pose proof (Qlt_floor q) as U.
  rewrite inject_Z_plus in U. change (inject_Z 1) with 1 in U.
  set (f := Qfloor q) in *.
  assert (N : inject_Z (- f - 1) == - inject_Z f - 1).
  { unfold Z.sub. rewrite inject_Z_plus, inject_Z_opp. reflexivity. }
  assert (N0 : inject_Z (- f) == - inject_Z f) by (now rewrite inject_Z_opp).
  destruct (Qcompare_spec (q - inject_Z f) (1 # 2)) as [E|Lt|Gt].
  - rewrite (rint_tie q f) by lra.
    rewrite (rint_tie (- q) (- f - 1)) by lra.
    replace (Z.even (- f - 1)) with (negb (Z.even f)).
    + destruct (Z.even f); simpl; lia.
    + rewrite Z.even_sub, Z.even_opp. simpl. now destruct (Z.even f).
  - rewrite (rint_below q f) by lra.
    destruct (Qeq_dec q (inject_Z f)) as [E|NE].
    + apply rint_below; lra.
    + assert (inject_Z f < q) by (apply Qle_lteq in L; destruct L as [L|L]; [exact L|exfalso; apply NE; now symmetry]).
      replace (- f)%Z with (- f - 1 + 1)%Z by lia.
      apply rint_above; lra.
  - rewrite (rint_above q f) by lra.
    replace (- (f + 1))%Z with (- f - 1)%Z by lia.
    apply rint_below; lra.
Qed.

Lemma rint_nonneg q : 0 <= q -> (0 <= rint q)%Z.
Proof.
  intros H. unfold rint.
  assert (F : (0 <= Qfloor q)%Z).
  { change 0%Z with (Qfloor 0). now apply Qfloor_resp_le. }
  destruct (_ ?= _); [destruct (Z.even _)| |]; lia.
Qed.

Lemma round2_opp x : round2 (- x) == - round2 x.
Proof.
  unfold round2.
  assert (E : - x * 100 == - (x * 100)) by ring.
  rewrite (rint_comp _ _ E), rint_opp.
  unfold Qeq, Qopp; simpl. lia.
Qed.

Lemma round2_nonneg x : 0 <= x -> 0 <= round2 x.
Proof.
  intros H. unfold round2.
  assert (0 <= x * 100) by (apply Qmult_le_0_compat; lra).
  pose proof (rint_nonneg _ H0). unfold Qle; simpl. lia.
Qed.









End NumFacts.

Import PyStrFacts NumFacts.

(* ================================================================== *)
(** ** The key normaliser *)

Lemma clean_str_text s : clean_str (PyStr s) = upper (strip s).
Proof.
  unfold clean_str; simpl.
  destruct (String.eqb_spec s EmptyString) as [->|_]; reflexivity.
Qed.

Lemma clean_str_idem val : clean_str (PyStr (clean_str val)) = clean_str val.
Proof.
  rewrite clean_str_text. unfold clean_str.
  destruct (isna val || is_empty_str val); [reflexivity|].
  now rewrite strip_upper, upper_idem, strip_idem.
Qed.

(** C8.  [clean_str] gives the empty text for a missing ([None], NaN) or
    empty value and the stripped, upper-cased text of [str(val)] for any
    other; cleaning a cleaned value changes nothing; the result does not
    depend on the case of the letters or on blanks around the text, and
    [" abc "] and ["ABC"] both clean to ["ABC"]. *)
Theorem clean_str_contract :
  clean_str PyNone = EmptyString
  /\ clean_str PyNaN = EmptyString
  /\ clean_str (PyStr EmptyString) = EmptyString
  /\ (forall val, isna val = false -> is_empty_str val = false ->
        clean_str val = upper (strip (py_str val)))
  /\ (forall val, clean_str (PyStr (clean_str val)) = clean_str val)
  /\ (forall s, clean_str (PyStr (lower s)) = clean_str (PyStr s)
             /\ clean_str (PyStr (upper s)) = clean_str (PyStr s)
             /\ clean_str (PyStr (strip s)) = clean_str (PyStr s))
  /\ clean_str (PyStr " abc ") = "ABC"
  /\ clean_str (PyStr "ABC") = "ABC".
Proof.
  repeat split; try reflexivity.
  - intros val Hna Hem. unfold clean_str. now rewrite Hna, Hem.
  - apply clean_str_idem.
  - rewrite !clean_str_text. now rewrite strip_lower, upper_lower.
  - rewrite !clean_str_text. now rewrite strip_upper, upper_idem.
  - rewrite !clean_str_text. now rewrite strip_idem.
Qed.

Lemma clean_str_contract_witness :
  clean_str (PyInt (-12)) = "-12" /\ clean_str (PyStr " Ab c  ") = "AB C".
Proof.
  destruct clean_str_contract as (_ & _ & _ & H & _).
  split.
  - rewrite (H (PyInt (-12))); reflexivity.
  - rewrite (H (PyStr " Ab c  ")); reflexivity.
Defined.

(* ================================================================== *)
(** ** Exact match before wildcard *)

Lemma find_filter {A : Type} (f : A -> bool) (l : list A) :
  find f l = hd_error (filter f l).
Proof.
  induction l as [|a l IH]; simpl; [reflexivity|].
  destruct (f a); [reflexivity|exact IH].
Qed.

Lemma match_one_precedence tbl col gl ex :
  resolves_by_precedence tbl col (gl, ex) (match_one tbl col default_val gl ex).
Proof.
  unfold resolves_by_precedence, match_one.
  rewrite !find_filter.
  change (filter (has_key (gl, ex)) tbl) with (select tbl gl ex).
  change (filter (has_key (fst (gl, ex), "*")) tbl) with (select tbl gl "*").
  destruct (select tbl gl ex) as [|m ms]; simpl; [|reflexivity].
  destruct (select tbl gl "*"); reflexivity.
Qed.

(** C3.  For every transaction row and both wildcard-capable tables: when
    a rule row has exactly the row's normalised (GL account, EXTC) key,
    the resolved account is the target of the first such rule row, whatever
    wildcard rows the table holds; only when there is none is it the target
    of the first wildcard row of that GL account; and only when there is
    neither is it the default [000000]. *)
Theorem exact_match_before_wildcard (t : Tables) (r : Core.row) :
  resolves_by_precedence (mam_df t) Mapping.DTV_Main_Account (record_key r)
    (Out.DTV_Main_Account (transform_row t r))
  /\ resolves_by_precedence (sam_df t) Mapping.DTV_Sub_Account (record_key r)
       (Out.DTV_Sub_Account (transform_row t r)).
Proof.
  unfold record_key; simpl. rewrite !clean_str_idem.
  split; apply match_one_precedence.
Qed.

(** The two account columns are the lists that the calls of
    [map_with_wildcard_clean] on the cleaned key columns return. *)
Lemma account_columns (t : Tables) (df : list Core.row) :
  let out := map (transform_row t) df in
  map Out.DTV_Main_Account out
  = map_with_wildcard_clean out (mam_df t) Out.GL_CLEAN Out.EXTC_CLEAN
      Mapping.DTV_Main_Account default_val
  /\ map Out.DTV_Sub_Account out
     = map_with_wildcard_clean out (sam_df t) Out.GL_CLEAN Out.EXTC_CLEAN
         Mapping.DTV_Sub_Account default_val.
Proof.
  unfold map_with_wildcard_clean. cbv zeta. rewrite !map_map. split; reflexivity.
Qed.

(** The scenario of the specification: exact row, wildcard row, no row. *)
Example wildcard_scenario :
  map Out.DTV_Main_Account
      (map (transform_row sample_tables)
           [dtl "c1" "4000" "10" "r1" 1 "p1";
            dtl "c1" "4000" "99" "r1" 1 "p1";
            dtl "c1" "9999" "10" "r1" 1 "p1"])
  = ["100100"; "100999"; "000000"].
Proof. reflexivity. Qed.

(* ================================================================== *)
(** ** Debit, credit and amount of a detail row *)

Section Amounts.
Local Open Scope Q_scope.


Lemma debit_nonneg x : 0 <= debit_of x.
Proof.
  unfold debit_of. destruct (Qltb 0 x) eqn:P; [|lra].
  apply Qltb_lt in P. apply round2_nonneg. lra.
Qed.

Lemma credit_nonneg x : 0 <= credit_of x.
Proof.
  unfold credit_of. destruct (Qltb x 0) eqn:N; [|lra].
  apply round2_nonneg, Qabs_nonneg.
Qed.



(** C4 at a failing input.  On doubles the amount column is rounded by
    numpy and the debit and credit columns by Python's [round].  For the
    amount 0.005 the debit is 0.01 and the credit 0, yet the amount
    column is 0.0; for 2.675 the debit is 2.67 and the amount column
    2.68.  In both rows the amount is not debit minus credit. *)
Theorem amount_differs_from_debit_minus_credit :
  let x := F64.ratio 5 1000 in
  let y := F64.ratio 2675 1000 in
  F64.Debit x = F64.ratio 1 100
  /\ F64.Credit x = F64.zero
  /\ F64.Amount x = F64.zero
  /\ PrimFloat.eqb (F64.Amount x) (PrimFloat.sub (F64.Debit x) (F64.Credit x))
     = false
  /\ F64.Debit y = F64.ratio 267 100
  /\ F64.Credit y = F64.zero
  /\ F64.Amount y = F64.ratio 268 100
  /\ PrimFloat.eqb (F64.Amount y) (PrimFloat.sub (F64.Debit y) (F64.Credit y))
     = false.
Proof. vm_compute. repeat split. Qed.


End Amounts.

(* ================================================================== *)
(** ** The unmatched frame *)

Lemma is_unmatched_iff (r : Out.row) :
  is_unmatched r = true <->
  Out.DTV_Main_Account r = "000000" \/ Out.DTV_Sub_Account r = "000000"
  \/ Out.DTV_Company r = "NULL" \/ Out.FIN_PRD_CD r = None.
Proof.
  unfold is_unmatched. rewrite !orb_true_iff, !String.eqb_eq.
  destruct (Out.FIN_PRD_CD r); intuition congruence.
Qed.

(** C2.  A detail row is in the unmatched frame exactly when its main
    account is [000000], or its sub account is [000000], or its company is
    [NULL], or its product lookup gave no value.  The account type and the
    cost center play no part: a row with none of the four conditions is
    not flagged, whatever its account type code and cost center are. *)
Theorem unmatched_exactly (t : Tables) (df : list Core.row) :
  let '(out, _, unmatched) := transform_data t df in
  (forall r, In r unmatched <->
     In r out /\
     (Out.DTV_Main_Account r = "000000" \/ Out.DTV_Sub_Account r = "000000"
      \/ Out.DTV_Company r = "NULL" \/ Out.FIN_PRD_CD r = None))
  /\ (forall r, In r out ->
        (Out.FIN_PRD_CD r = None <->
         dict_get (prod_map t) (Out.Product_Code r) = None))
  /\ (forall r, In r out ->
        Out.DTV_Main_Account r <> "000000" ->
        Out.DTV_Sub_Account r <> "000000" ->
        Out.DTV_Company r <> "NULL" ->
        Out.FIN_PRD_CD r <> None ->
        ~ In r unmatched).
Proof.
  unfold transform_data. split; [|split].
  - intros r. rewrite filter_In, is_unmatched_iff. reflexivity.
  - intros r H. apply in_map_iff in H. destruct H as (c & <- & _). reflexivity.
  - intros r _ M S C P H. apply filter_In in H. destruct H as [_ H].
    apply is_unmatched_iff in H. intuition.
Qed.

Lemma unmatched_exactly_witness :
  let c := dtl "c1" "4000" "99" "r1" 1 "p1" in
  let r := transform_row sample_tables c in
  Out.AccountType_Code r = "UNKNOWN"
  /\ Out.DTV_Cost_Center r = "000000"
  /\ ~ In r (snd (transform_data sample_tables [c])).
Proof.
  intros c r. split; [reflexivity|split; [reflexivity|]].
  pose proof (unmatched_exactly sample_tables [c]) as H.
  unfold transform_data in H. destruct H as (_ & _ & H).
  apply (H r).
  - left. reflexivity.
  - discriminate.
  - discriminate.
  - discriminate.
  - discriminate.
Defined.

(* ================================================================== *)
(** ** The composite account of a detail row *)

Lemma split_compose a b c d e f g h i :
  free_of "*" a = true -> free_of "*" b = true -> free_of "*" c = true ->
  free_of "*" d = true -> free_of "*" e = true -> free_of "*" f = true ->
  free_of "*" g = true -> free_of "*" h = true -> free_of "*" i = true ->
  split "*" (compose a b c d e f g h i) = [a; b; c; d; e; f; g; h; i].
Proof.
  intros Ha Hb Hc Hd He Hf Hg Hh Hi. unfold compose.
  fuse_separators.
  rewrite !split_app by assumption.
  now rewrite (split_free _ i Hi).
Qed.

(** C5 as stated fails: a product that the sheet maps to the placeholder
    code MISSING is resolved, yet its segment in the account is [0000]. *)
Lemma composite_product_counterexample :
  let r := transform_row sample_tables (dtl "c1" "4000" "10" "r1" 1 "p2") in
  segments_free r = true
  /\ Out.FIN_PRD_CD r = Some "MISSING"
  /\ split "*" (Out.Account r) <> stated_segments r.
Proof. vm_compute. repeat split; discriminate. Qed.

(** C5, amended.  When no segment value holds a [*], the account of a
    detail row splits on [*] into exactly nine segments, in the order
    company, main account, sub account, cost center, [0000], product,
    [000], [00000], [00000]; the product segment is the looked-up code, or
    [0000] when the lookup gave no value or gave the empty text, UNMATCHED
    or MISSING. *)
Theorem composite_account_segments (t : Tables) (c : Core.row) :
  let r := transform_row t c in
  segments_free r = true ->
  split "*" (Out.Account r)
    = [Out.DTV_Company r; Out.DTV_Main_Account r; Out.DTV_Sub_Account r;
       Out.DTV_Cost_Center r; "0000"; Out.Product r; "000"; "00000"; "00000"]
  /\ List.length (split "*" (Out.Account r)) = 9%nat
  /\ Out.Product r =
       match Out.FIN_PRD_CD r with
       | None => "0000"
       | Some p =>
           if String.eqb p EmptyString || String.eqb p "UNMATCHED"
              || String.eqb p "MISSING"
           then "0000" else p
       end.
Proof.
  intros r H. unfold segments_free in H.
  rewrite !andb_true_iff in H. destruct H as ((((Hc & Hm) & Hs) & Hk) & Hp).
  assert (E : split "*" (Out.Account r)
              = [Out.DTV_Company r; Out.DTV_Main_Account r;
                 Out.DTV_Sub_Account r; Out.DTV_Cost_Center r; "0000";
                 Out.Product r; "000"; "00000"; "00000"]).
  { apply split_compose; auto. }
  split; [exact E|]. split; [now rewrite E|].
  subst r. simpl. unfold replace_placeholders.
  destruct (dict_get _ _); reflexivity.
Qed.

Lemma composite_account_segments_witness :
  split "*" (Out.Account
               (transform_row sample_tables (dtl "c1" "9999" "10" "r1" 1 "p9")))
  = ["D1"; "000000"; "000000"; "000000"; "0000"; "0000"; "000"; "00000"; "00000"].
Proof.
  apply (composite_account_segments sample_tables
           (dtl "c1" "9999" "10" "r1" 1 "p9")).
  reflexivity.
Defined.

(* ================================================================== *)
(** ** A missing rule table *)

Lemma absent_none_present mapping_files :
  absent_categories mapping_files = [] ->
  exists sam mam ma company ccm n,
    load_mapping_files mapping_files
    = ({| slot_sam := Some sam; slot_mam := Some mam; slot_ma := Some ma;
          slot_company := Some company; slot_ccm := Some ccm |}, n).
Proof.
  unfold absent_categories, is_absent.
  destruct (load_mapping_files mapping_files) as [[a b c d e] n]; simpl.
  destruct a, b, c, d, e; simpl; try discriminate.
  intros _. now do 6 eexists.
Qed.

Lemma absent_some_error csv mapping_files :
  absent_categories mapping_files <> [] ->
  extract_data csv mapping_files = inl (ValueError missing_mapping_msg).
Proof.
  unfold absent_categories, is_absent, extract_data.
  destruct (load_mapping_files mapping_files) as [[a b c d e] n]; simpl.
  destruct a, b, c, d, e; simpl; try reflexivity.
  intros H. now elim H.
Qed.

(** C6 as stated fails: the run without a sam frame and the run without
    a ccm frame end in the same error, so the missing category cannot be
    read off the error. *)
Lemma error_does_not_name_category :
  let no_sam := [file "mam.txt"; file "ma.txt"; file "company.txt"; file "ccm.txt"] in
  let no_ccm := [file "sam.txt"; file "mam.txt"; file "ma.txt"; file "company.txt"] in
  absent_categories no_sam = [Sam]
  /\ absent_categories no_ccm = [Ccm]
  /\ run (Some []) no_sam (Some sample_sheet) = Failed (ValueError missing_mapping_msg)
  /\ run (Some []) no_ccm (Some sample_sheet) = Failed (ValueError missing_mapping_msg)
  /\ ~ exists decode, error_names_missing decode.
Proof.
  intros no_sam no_ccm.
  assert (A : absent_categories no_sam = [Sam]) by reflexivity.
  assert (B : absent_categories no_ccm = [Ccm]) by reflexivity.
  assert (RA : run (Some []) no_sam (Some sample_sheet)
               = Failed (ValueError missing_mapping_msg)) by reflexivity.
  assert (RB : run (Some []) no_ccm (Some sample_sheet)
               = Failed (ValueError missing_mapping_msg)) by reflexivity.
  repeat split; try assumption.
  intros [decode H].
  pose proof (H [] no_sam sample_sheet _ RA) as HA.
  pose proof (H [] no_ccm sample_sheet _ RB) as HB.
  rewrite A in HA. rewrite B in HB.
  specialize (HA ltac:(discriminate)). specialize (HB ltac:(discriminate)).
  rewrite HA in HB. discriminate HB.
Qed.

(** C6, amended.  With the three uploads present, if any of the five rule
    frames (sam, mam, ma, company, ccm) is still absent after the mapping
    files are read, the run fails with the single error whose message is
    the fixed text listing all five categories, whatever the transaction
    rows and the product sheet are, and no detail, summary or unmatched
    output is produced; with the five frames present, a product sheet
    without one of its two columns fails the run likewise with an error
    listing the headers found. *)
Theorem missing_rule_table_is_fatal
    (csv : list Core.row) (mapping_files : list MappingFile) (sheet : Sheet.t) :
  mapping_files <> [] ->
  (absent_categories mapping_files <> [] ->
     run (Some csv) mapping_files (Some sheet)
     = Failed (ValueError missing_mapping_msg))
  /\ (absent_categories mapping_files = [] ->
      existsb (String.eqb "ATT_SLS_PRD_ID") (map strip (Sheet.columns sheet)) = false
      \/ existsb (String.eqb "FIN_PRD_CD") (map strip (Sheet.columns sheet)) = false ->
      run (Some csv) mapping_files (Some sheet)
      = Failed (ValueError
          ("Product mapping sheet must contain columns: ATT_SLS_PRD_ID, FIN_PRD_CD. Found: "
             ++ py_repr_list (map strip (Sheet.columns sheet)))))
  /\ (forall e, run (Some csv) mapping_files (Some sheet) = Failed e ->
      forall rep, run (Some csv) mapping_files (Some sheet) <> Completed rep).
Proof.
  intros NE. destruct mapping_files as [|f fs]; [now elim NE|].
  repeat split.
  - intros A. unfold run. now rewrite (absent_some_error csv (f :: fs) A).
  - intros A C. unfold run.
    destruct (absent_none_present _ A) as (sam & mam & ma & company & ccm & n & E).
    unfold extract_data. rewrite E.
    unfold load_product_mapping.
    replace (negb _ || negb _) with true; [reflexivity|].
    destruct C as [C|C]; rewrite C; simpl; [reflexivity|now rewrite orb_true_r].
  - intros e E rep. rewrite E. discriminate.
Qed.

Lemma missing_rule_table_is_fatal_witness :
  run (Some [dtl "c1" "4000" "10" "r1" 1 "p1"])
      [file "mam.txt"; file "ma.txt"; file "company.txt"; file "ccm.txt"]
      (Some sample_sheet)
  = Failed (ValueError missing_mapping_msg).
Proof.
  apply (missing_rule_table_is_fatal [dtl "c1" "4000" "10" "r1" 1 "p1"]
           [file "mam.txt"; file "ma.txt"; file "company.txt"; file "ccm.txt"]
           sample_sheet).
  - discriminate.
  - vm_compute. discriminate.
Defined.

(* ================================================================== *)
(** ** Grouping *)

Section Grouping.
Local Open Scope Q_scope.

Lemma insert_key_perm k l : Permutation (insert_key k l) (k :: l).
Proof.
  induction l as [|h l IH]; simpl; [reflexivity|].
  destruct (key_leb k h); [reflexivity|].
  rewrite IH. apply perm_swap.
Qed.

Lemma sort_keys_perm l : Permutation (sort_keys l) l.
Proof.
  induction l as [|k l IH]; simpl; [reflexivity|].
  rewrite insert_key_perm. now constructor.
Qed.

Lemma group_keys_In (df : list Out.row) (k : key) :
  In k (group_keys df) <-> exists r, In r df /\ group_key r = k.
Proof.
  unfold group_keys. split.
  - intros H. apply (Permutation_in _ (sort_keys_perm _)) in H.
    apply nodup_In, in_map_iff in H. destruct H as (r & E & H). now exists r.
  - intros (r & H & E).
    apply (Permutation_in _ (Permutation_sym (sort_keys_perm _))).
    apply nodup_In, in_map_iff. now exists r.
Qed.

Lemma group_keys_NoDup (df : list Out.row) : NoDup (group_keys df).
Proof.
  unfold group_keys.
  apply (Permutation_NoDup (Permutation_sym (sort_keys_perm _))).
  apply NoDup_nodup.
Qed.

Lemma same_key_iff k r : same_key k r = true <-> group_key r = k.
Proof. unfold same_key. destruct (key_eq_dec (group_key r) k); split; congruence. Qed.

Lemma members_In df k r : In r (members df k) <-> In r df /\ group_key r = k.
Proof. unfold members. now rewrite filter_In, same_key_iff. Qed.

Lemma summary_row_key df k : summary_key (summary_row df k) = k.
Proof. destruct k as [[[[[a b] c] d] e] f]. reflexivity. Qed.

Lemma summary_row_Debit df k :
  Summary.Debit (summary_row df k) = round2 (Qsum (map Out.Debit (members df k))).
Proof. destruct k as [[[[[a b] c] d] e] f]. reflexivity. Qed.

Lemma summary_row_Credit df k :
  Summary.Credit (summary_row df k) = round2 (Qsum (map Out.Credit (members df k))).
Proof. destruct k as [[[[[a b] c] d] e] f]. reflexivity. Qed.

Lemma summarize_In df g :
  In g (summarize df) <-> exists k, In k (group_keys df) /\ g = summary_row df k.
Proof.
  unfold summarize. rewrite in_map_iff.
  split; intros (k & A & B); exists k; [now split|now split].
Qed.







(** C7 as stated fails: two rows of amount 0.004 in one group have debit
    0.00 each, so the group's debit is 0.00, while the unrounded amounts
    sum to 0.008, which rounds to 0.01. *)
Lemma group_rounding_counterexample :
  let df := [dtl "c1" "4000" "10" "r1" (4 # 1000) "p1";
             dtl "c1" "4000" "10" "r1" (4 # 1000) "p1"] in
  let '(out, summary, _) := transform_data sample_tables df in
  exists g, In g summary
            /\ Summary.Debit g == 0
            /\ stated_group_debit out (summary_key g) == 1 # 100
            /\ ~ (Summary.Debit g == stated_group_debit out (summary_key g)).
Proof.
  intros df. unfold transform_data. cbv beta iota zeta.
  exists (summary_row (map (transform_row sample_tables) df)
            (group_key (transform_row sample_tables
                          (dtl "c1" "4000" "10" "r1" (4 # 1000) "p1")))).
  split; [vm_compute; left; reflexivity|].
  split; [vm_compute; reflexivity|].
  split; [vm_compute; reflexivity|].
  vm_compute. discriminate.
Qed.

(** C7, amended.  For every summary group, the debit total and the credit
    total are computed by summing the members' debit and credit values,
    each of which was rounded to two decimals on its own row beforehand,
    and rounding the sum to two decimals once more. *)
Theorem group_totals (t : Tables) (df : list Core.row) :
  let '(out, summary, _) := transform_data t df in
  forall g, In g summary ->
    let ms := members out (summary_key g) in
    ms <> []
    /\ Summary.Debit g = round2 (Qsum (map Out.Debit ms))
    /\ Summary.Credit g = round2 (Qsum (map Out.Credit ms))
    /\ Forall (fun r =>
                 Out.Debit r = debit_of (Core.Amount (Out.src r))
                 /\ Out.Credit r = credit_of (Core.Amount (Out.src r))) ms.
Proof.
  unfold transform_data. cbv beta iota zeta. intros g Hg.
  apply summarize_In in Hg. destruct Hg as (k & Hk & ->).
  rewrite summary_row_key.
  split; [|split; [|split]].
  - apply group_keys_In in Hk. destruct Hk as (r & Hr & E).
    intros N. assert (M : In r (members (map (transform_row t) df) k))
      by now apply members_In.
    rewrite N in M. exact M.
  - apply summary_row_Debit.
  - apply summary_row_Credit.
  - apply Forall_forall. intros r Hr. apply members_In in Hr.
    destruct Hr as [Hr _]. apply in_map_iff in Hr.
    destruct Hr as (c & <- & _). split; reflexivity.
Qed.

Lemma group_totals_witness :
  let df := [dtl "c1" "4000" "10" "r1" (15000 # 100) "p1";
             dtl "c1" "4000" "10" "r1" (- 50 # 1) "p1"] in
  let out := map (transform_row sample_tables) df in
  let g := summary_row out
             (group_key (transform_row sample_tables
                           (dtl "c1" "4000" "10" "r1" (15000 # 100) "p1"))) in
  In g (summarize out)
  /\ members out (summary_key g) <> []
  /\ Summary.Debit g = round2 (Qsum (map Out.Debit (members out (summary_key g)))).
Proof.
  intros df out g.
  assert (I : In g (summarize out)) by (vm_compute; left; reflexivity).
  split; [exact I|].
  pose proof (group_totals sample_tables df) as H.
  unfold transform_data in H. cbv beta iota zeta in H.
  destruct (H g I) as (A & B & _).
  split; [exact A|exact B].
Defined.

End Grouping.

(* ================================================================== *)
(** ** The account text of a summary row *)

Lemma summary_row_Account df k :
  Summary.Account (summary_row df k)
  = let g := summary_row df k in
    cell_add
      (cell_add
         (Some (Summary.DTV_Company g ++ "*" ++ Summary.DTV_Main_Account g ++ "*"
                  ++ Summary.DTV_Sub_Account g ++ "*" ++ Summary.AccountType g
                  ++ "*" ++ Summary.DTV_Cost_Center g ++ "*0000*"))
         (Summary.FIN_PRD_CD g))
      (Some "*000*00000*00000").
Proof. destruct k as [[[[[a b] c] d] e] f]. reflexivity. Qed.

(** A summary row of a resolved product has an account of ten segments,
    the account type label being the fourth; a summary row of an
    unresolved product has no account text at all. *)
Lemma summary_account_shape (t : Tables) (df : list Core.row) (g : Summary.row) :
  In g (snd (fst (transform_data t df))) ->
  match Summary.FIN_PRD_CD g with
  | None => Summary.Account g = None
  | Some fin =>
      exists a, Summary.Account g = Some a /\
        (free_of "*" (Summary.DTV_Company g) = true ->
         free_of "*" (Summary.DTV_Main_Account g) = true ->
         free_of "*" (Summary.DTV_Sub_Account g) = true ->
         free_of "*" (Summary.AccountType g) = true ->
         free_of "*" (Summary.DTV_Cost_Center g) = true ->
         free_of "*" fin = true ->
         split "*" a = ten_segments g fin)
  end.
Proof.
  unfold transform_data; cbv beta iota zeta; simpl fst; simpl snd.
  intros H. apply summarize_In in H. destruct H as (k & _ & ->).
  rewrite summary_row_Account. cbv zeta.
  destruct (Summary.FIN_PRD_CD _) as [fin|]; [|reflexivity].
  eexists. split; [reflexivity|].
  intros Hc Hm Hs Ht Hk Hf. unfold ten_segments.
  set (g := summary_row _ k).
  change "*0000*" with ("*" ++ "0000" ++ "*").
  change "*000*00000*00000" with ("*" ++ "000" ++ "*" ++ "00000" ++ "*" ++ "00000").
  rewrite !append_assoc.
  fuse_separators.
  rewrite !split_app by (assumption || reflexivity).
  reflexivity.
Qed.

(** C9 at a failing input.  For one transaction whose product code is not
    in the product sheet, the detail row carries the nine-segment account
    with the product segment [0000], but the only summary row has no
    account text: the missing product cell makes the concatenation
    missing. *)
Theorem summary_account_unresolved_product :
  let '(out, summary, _) :=
    transform_data sample_tables [dtl "c1" "4000" "10" "r1" 1 "p9"] in
  map Out.FIN_PRD_CD out = [None]
  /\ map Out.Account out = ["D1*100100*200000*777777*0000*0000*000*00000*00000"]
  /\ map Summary.FIN_PRD_CD summary = [None]
  /\ map Summary.Account summary = [None].
Proof. vm_compute. repeat split. Qed.

(** With the product resolved, the same transaction gets the ten-segment
    summary account. *)
Example summary_account_resolved_product :
  map Summary.Account
      (snd (fst (transform_data sample_tables [dtl "c1" "4000" "10" "r1" 1 "p1"])))
  = [Some "D1*100100*200000*Revenue*777777*0000*F1*000*00000*00000"].
Proof. vm_compute. reflexivity. Qed.

(* ================================================================== *)
(** ** Unmatched rows in the other outputs *)

Section Unmatched.
Local Open Scope Q_scope.




End Unmatched.

(* ================================================================== *)
(** * Further properties *)

(** ** Dictionaries built with [dict(zip(...))] *)

Section Dictionaries.

Lemma find_snoc {A : Type} (p : A -> bool) (l : list A) (a : A) :
  find p (l ++ [a])
  = match find p l with
    | Some x => Some x
    | None => if p a then Some a else None
    end.
Proof.
  induction l as [|b l IH]; simpl; [reflexivity|].
  destruct (p b); [reflexivity|exact IH].
Qed.

Lemma find_last_cons {A : Type} (p : A -> bool) (a : A) (l : list A) :
  find_last p (a :: l)
  = match find_last p l with
    | Some x => Some x
    | None => if p a then Some a else None
    end.
Proof. unfold find_last; simpl. apply find_snoc. Qed.

Lemma find_last_snoc {A : Type} (p : A -> bool) (l : list A) (a : A) :
  find_last p (l ++ [a]) = if p a then Some a else find_last p l.
Proof. unfold find_last. rewrite rev_app_distr. reflexivity. Qed.

Lemma find_map {A B : Type} (g : A -> B) (p : B -> bool) (l : list A) :
  find p (map g l) = option_map g (find (fun x => p (g x)) l).
Proof.
  induction l as [|a l IH]; simpl; [reflexivity|].
  destruct (p (g a)); [reflexivity|exact IH].
Qed.

Lemma find_ext_in {A : Type} (p q : A -> bool) (l : list A) :
  (forall x, In x l -> p x = q x) -> find p l = find q l.
Proof.
  induction l as [|a l IH]; simpl; intros H; [reflexivity|].
  rewrite (H a) by now left.
  destruct (q a); [reflexivity|]. apply IH. intros x Hx. apply H. now right.
Qed.

Lemma find_last_ext_in {A : Type} (p q : A -> bool) (l : list A) :
  (forall x, In x l -> p x = q x) -> find_last p l = find_last q l.
Proof.
  intros H. unfold find_last. apply find_ext_in.
  intros x Hx. apply H. now apply in_rev.
Qed.

Lemma dict_get_set (d : dict) (k v k' : string) :
  dict_get (dict_set d k v) k'
  = if String.eqb k k' then Some v else dict_get d k'.
Proof.
  induction d as [|[k0 v0] d IH]; simpl; [reflexivity|].
  destruct (String.eqb_spec k0 k) as [->|N]; simpl.
  - destruct (String.eqb k k'); reflexivity.
  - rewrite IH.
    destruct (String.eqb_spec k0 k') as [->|N']; [|reflexivity].
    destruct (String.eqb_spec k k') as [E|_]; [now elim N|reflexivity].
Qed.

Lemma dict_get_fold (l : list (string * string)) (d : dict) (k : string) :
  dict_get (fold_left (fun d kv => dict_set d (fst kv) (snd kv)) l d) k
  = match find_last (fun kv => String.eqb (fst kv) k) l with
    | Some kv => Some (snd kv)
    | None => dict_get d k
    end.
Proof.
  revert d. induction l as [|a l IH]; intros d; simpl; [reflexivity|].
  rewrite IH, find_last_cons, dict_get_set.
  destruct (find_last _ l); [reflexivity|].
  destruct (String.eqb (fst a) k); reflexivity.
Qed.

(** a key maps to the value of the last pair that carries it *)
Lemma dict_get_zip_map {A : Type} (kf vf : A -> string) (l : list A) (k : string) :
  dict_get (dict_zip (map kf l) (map vf l)) k
  = option_map vf (find_last (fun x => String.eqb (kf x) k) l).
Proof.
  unfold dict_zip. rewrite dict_get_fold. simpl.
  assert (E : combine (map kf l) (map vf l) = map (fun x => (kf x, vf x)) l).
  { induction l as [|a l IH]; simpl; [reflexivity|now rewrite IH]. }
  rewrite E. unfold find_last. rewrite <- map_rev, find_map. simpl.
  destruct (find _ (rev l)); reflexivity.
Qed.

End Dictionaries.

(* ================================================================== *)
(** ** Account type, company and cost center *)

(** X1.  The account type code of a detail row is the [AccountType] of
    the last row of the account-type table whose cleaned [MainAccount]
    equals the cleaned resolved main account, and [UNKNOWN] when there is
    none; the label is the entry of the label table for that code, or the
    code itself. *)
Theorem account_type_last_rule_wins (t : Tables) (r : Core.row) :
  let out := transform_row t r in
  let hit :=
    find_last (fun m => String.eqb (clean_str (PyStr (Mapping.MainAccount m)))
                          (clean_str (PyStr (Out.DTV_Main_Account out))))
              (ma_df t) in
  Out.AccountType_Code out
    = match hit with
      | Some m => Mapping.AccountType m
      | None => "UNKNOWN"
      end
  /\ Out.AccountType out
     = match hit with
       | Some m => account_type_label (Mapping.AccountType m)
       | None => "UNKNOWN"
       end.
Proof.
  cbv zeta.
  assert (E : Out.AccountType_Code (transform_row t r)
              = match find_last
                        (fun m => String.eqb (clean_str (PyStr (Mapping.MainAccount m)))
                                    (clean_str (PyStr (Out.DTV_Main_Account
                                                         (transform_row t r)))))
                        (ma_df t) with
                | Some m => Mapping.AccountType m
                | None => "UNKNOWN"
                end).
  { cbn [transform_row Out.AccountType_Code Out.DTV_Main_Account].
    unfold ma_map_full. rewrite dict_get_zip_map.
    destruct (find_last _ (ma_df t)); reflexivity. }
  split; [exact E|].
  change (Out.AccountType (transform_row t r))
    with (account_type_label (Out.AccountType_Code (transform_row t r))).
  rewrite E. destruct (find_last _ (ma_df t)); reflexivity.
Qed.

(** X2.  The company of a detail row is the [DTV_Company] of the last
    row of the company table whose cleaned [ATT_Company] equals the
    cleaned company code of the transaction, and [NULL] when there is
    none. *)
Theorem company_last_rule_wins (t : Tables) (r : Core.row) :
  Out.DTV_Company (transform_row t r)
  = match find_last
            (fun m => String.eqb (clean_str (PyStr (Mapping.ATT_Company m)))
                        (clean_str (PyStr (Core.Company_Code r))))
            (company_df t) with
    | Some m => Mapping.DTV_Company m
    | None => "NULL"
    end.
Proof.
  cbn [transform_row Out.DTV_Company].
  unfold company_map. rewrite dict_get_zip_map.
  destruct (find_last _ (company_df t)); reflexivity.
Qed.

(** Both tables on duplicates: the later row decides. *)
Example later_duplicate_decides :
  let t := {| sam_df := []; mam_df := [rule "4000" "*" "100100"];
              ma_df := [type_rule "100100" "R"; type_rule " 100100" "A"];
              company_df := [company_rule "c1" "D1"; company_rule "C1 " "D2"];
              ccm_df := []; product_df := [] |} in
  let out := transform_row t (dtl "c1" "4000" "10" "r1" 1 "p1") in
  Out.AccountType out = "Asset" /\ Out.DTV_Company out = "D2".
Proof. split; reflexivity. Qed.

Lemma pipe_key_eqb (a b a' b' : string) :
  free_of "|" a = true -> free_of "|" a' = true ->
  String.eqb (a ++ "|" ++ b) (a' ++ "|" ++ b')
  = String.eqb a a' && String.eqb b b'.
Proof.
  revert a'. induction a as [|c a IH]; intros [|c' a']; cbn [append String.eqb free_of].
  - intros _ _. reflexivity.
  - intros _ H. apply andb_true_iff in H. destruct H as [H _].
    rewrite Ascii.eqb_sym. destruct (Ascii.eqb c' "|"); [discriminate|reflexivity].
  - intros H _. apply andb_true_iff in H. destruct H as [H _].
    destruct (Ascii.eqb c "|"); [discriminate|reflexivity].
  - intros H H'. apply andb_true_iff in H, H'.
    destruct H as [_ H], H' as [_ H'].
    destruct (Ascii.eqb c c'); [now apply IH|reflexivity].
Qed.

(** X3.  When no stripped RCC holds the separator [|], the cost center
    of a detail row is the [DTV_Cost_Center] of the last row of the
    cost-center table whose stripped [RCC] equals the stripped RCC of the
    transaction and whose stripped [AccountType] equals the stripped
    account type code of the row (both compared as written, case
    included), and [000000] when there is none. *)
Theorem cost_center_last_rule_wins (t : Tables) (r : Core.row) :
  free_of "|" (strip (Core.RCC r)) = true ->
  (forall m, In m (ccm_df t) -> free_of "|" (strip (Mapping.RCC m)) = true) ->
  let out := transform_row t r in
  Out.DTV_Cost_Center out
  = match find_last (is_cost_rule (strip (Core.RCC r))
                                  (strip (Out.AccountType_Code out)))
                    (ccm_df t) with
    | Some m => Mapping.DTV_Cost_Center m
    | None => "000000"
    end.
Proof.
  intros Hr Hm. cbv zeta.
  set (out := transform_row t r).
  assert (E : Out.DTV_Cost_Center out
              = fillna "000000"
                  (dict_get (ccm_map t)
                     (strip (strip (Core.RCC r)) ++ "|"
                        ++ strip (Out.AccountType_Code out)))) by reflexivity.
  rewrite E. unfold ccm_map. rewrite dict_get_zip_map, strip_idem.
  rewrite (find_last_ext_in _
             (is_cost_rule (strip (Core.RCC r))
                           (strip (Out.AccountType_Code out)))).
  - destruct (find_last _ (ccm_df t)); reflexivity.
  - intros m Hin. unfold is_cost_rule. apply pipe_key_eqb; [now apply Hm|exact Hr].
Qed.

Lemma cost_center_last_rule_wins_witness :
  Out.DTV_Cost_Center
    (transform_row sample_tables (dtl "c1" "4000" "10" " r1 " 1 "p1"))
  = "777777".
Proof.
  apply (cost_center_last_rule_wins sample_tables
           (dtl "c1" "4000" "10" " r1 " 1 "p1")).
  - reflexivity.
  - intros m [<-|[]]. reflexivity.
Defined.

(** Without the precondition two different pairs can share a key: the
    rule of RCC [a|b] and type [c] serves the transaction of RCC [a] whose
    account type code is [b|c]. *)
Example cost_key_collision :
  let t := {| sam_df := []; mam_df := [rule "4000" "*" "100100"];
              ma_df := [type_rule "100100" "b|c"];
              company_df := [];
              ccm_df := [cost_rule "a|b" "c" "999999"];
              product_df := [] |} in
  let out := transform_row t (dtl "c1" "4000" "10" "a" 1 "p1") in
  Out.AccountType_Code out = "b|c" /\ Out.DTV_Cost_Center out = "999999".
Proof. split; reflexivity. Qed.

(* ================================================================== *)
(** ** The product sheet and the product stage *)

Section Products.

Lemma existsb_eqb_In (k : string) (seen : list string) :
  existsb (String.eqb k) seen = true <-> In k seen.
Proof.
  rewrite existsb_exists. split.
  - intros (x & H & E). apply String.eqb_eq in E. now subst.
  - intros H. exists k. split; [exact H|apply String.eqb_refl].
Qed.

Lemma drop_duplicates_ids (seen : list string) (l : list Prod.row) (x : string) :
  In x (map Prod.ATT_SLS_PRD_ID (drop_duplicates seen l))
  <-> In x (map Prod.ATT_SLS_PRD_ID l) /\ ~ In x seen.
Proof.
  revert seen. induction l as [|r l IH]; intros seen; simpl; [tauto|].
  destruct (existsb _ seen) eqn:E.
  - apply existsb_eqb_In in E. rewrite IH.
    split; [tauto|]. intros [[<-|H] N]; [contradiction|tauto].
  - assert (N : ~ In (Prod.ATT_SLS_PRD_ID r) seen).
    { intros H. apply existsb_eqb_In in H. congruence. }
    simpl. rewrite IH. simpl.
    destruct (string_dec (Prod.ATT_SLS_PRD_ID r) x) as [<-|D]; [tauto|].
    tauto.
Qed.

Lemma drop_duplicates_NoDup (seen : list string) (l : list Prod.row) :
  NoDup (map Prod.ATT_SLS_PRD_ID (drop_duplicates seen l)).
Proof.
  revert seen. induction l as [|r l IH]; intros seen; simpl; [constructor|].
  destruct (existsb _ seen); [apply IH|].
  simpl. constructor; [|apply IH].
  rewrite drop_duplicates_ids. intros [_ N]. apply N. now left.
Qed.

Lemma drop_duplicates_In (seen : list string) (l : list Prod.row) (r : Prod.row) :
  In r (drop_duplicates seen l) -> In r l.
Proof.
  revert seen. induction l as [|a l IH]; intros seen; simpl; [tauto|].
  destruct (existsb _ seen); [intros H; right; now apply (IH seen)|].
  intros [<-|H]; [now left|right; now apply (IH _ H)].
Qed.

Lemma drop_duplicates_length (seen : list string) (l : list Prod.row) :
  (List.length (drop_duplicates seen l) <= List.length l)%nat.
Proof.
  revert seen. induction l as [|a l IH]; intros seen; simpl; [lia|].
  destruct (existsb _ seen); [specialize (IH seen)|specialize (IH (Prod.ATT_SLS_PRD_ID a :: seen))];
    simpl; lia.
Qed.

(** dropping duplicates keeps the first row of every key *)
Lemma drop_duplicates_find (seen : list string) (l : list Prod.row) (k : string) :
  ~ In k seen ->
  find (fun r => String.eqb (Prod.ATT_SLS_PRD_ID r) k) (drop_duplicates seen l)
  = find (fun r => String.eqb (Prod.ATT_SLS_PRD_ID r) k) l.
Proof.
  revert seen. induction l as [|r l IH]; intros seen N; simpl; [reflexivity|].
  destruct (existsb _ seen) eqn:E.
  - apply existsb_eqb_In in E.
    destruct (String.eqb_spec (Prod.ATT_SLS_PRD_ID r) k) as [<-|_]; [contradiction|].
    now apply IH.
  - simpl. destruct (String.eqb_spec (Prod.ATT_SLS_PRD_ID r) k) as [_|D]; [reflexivity|].
    apply IH. intros [H|H]; [now elim D|contradiction].
Qed.

(** with distinct keys the last row of a key is its first row *)
Lemma find_last_unique (l : list Prod.row) (k : string) :
  NoDup (map Prod.ATT_SLS_PRD_ID l) ->
  find_last (fun r => String.eqb (Prod.ATT_SLS_PRD_ID r) k) l
  = find (fun r => String.eqb (Prod.ATT_SLS_PRD_ID r) k) l.
Proof.
  induction l as [|a l IH]; intros ND; [reflexivity|].
  inversion ND as [|? ? Ha ND']; subst.
  rewrite find_last_cons, (IH ND'). simpl.
  destruct (String.eqb_spec (Prod.ATT_SLS_PRD_ID a) k) as [<-|_].
  - destruct (find _ l) as [x|] eqn:F; [|reflexivity].
    apply find_some in F. destruct F as [F E]. apply String.eqb_eq in E.
    elim Ha. rewrite <- E. now apply in_map.
  - destruct (find _ l); reflexivity.
Qed.

Lemma load_product_mapping_rows (sheet : Sheet.t) (prod : list Prod.row) :
  load_product_mapping sheet = inr prod ->
  prod = drop_duplicates []
           (map (fun r => Prod.mk (sheet_key r) (sheet_value r)) (Sheet.rows sheet)).
Proof.
  unfold load_product_mapping.
  destruct (negb _ || negb _); [discriminate|].
  intros H. now injection H as <-.
Qed.

Lemma clean_text_fix (s : string) : upper (strip (upper (strip s))) = upper (strip s).
Proof. now rewrite strip_upper, upper_idem, strip_idem. Qed.

(** X4.  With the product frame loaded from a sheet, the product lookup
    of a detail row gives the cleaned [FIN_PRD_CD] of the first row of the
    sheet whose cleaned [ATT_SLS_PRD_ID] equals the stripped, upper-cased
    product code of the transaction, and nothing when no row has it. *)
Theorem product_first_sheet_row_wins
    (sheet : Sheet.t) (t : Tables) (r : Core.row) :
  load_product_mapping sheet = inr (product_df t) ->
  Out.FIN_PRD_CD (transform_row t r)
  = option_map sheet_value
      (find (fun s => String.eqb (sheet_key s) (upper (strip (Core.Product_Code r))))
            (Sheet.rows sheet)).
Proof.
  intros L. apply load_product_mapping_rows in L.
  cbn [transform_row Out.FIN_PRD_CD]. unfold prod_map.
  rewrite dict_get_zip_map, L.
  rewrite find_last_unique by apply drop_duplicates_NoDup.
  rewrite drop_duplicates_find by (intros []).
  rewrite find_map. cbn [Prod.ATT_SLS_PRD_ID].
  destruct (find _ (Sheet.rows sheet)); reflexivity.
Qed.

Lemma product_first_sheet_row_wins_witness :
  let sheet := {| Sheet.columns := [" ATT_SLS_PRD_ID"; "FIN_PRD_CD "; "Note"];
                  Sheet.rows := [Sheet.mk (Some " p1 ") (Some "f1");
                                 Sheet.mk None (Some "f0");
                                 Sheet.mk (Some "P1") (Some "f2")] |} in
  let t := {| sam_df := []; mam_df := []; ma_df := []; company_df := [];
              ccm_df := [];
              product_df := [Prod.mk "P1" "F1"; Prod.mk "NAN" "F0"] |} in
  Out.FIN_PRD_CD (transform_row t (dtl "c1" "4000" "10" "r1" 1 "p1")) = Some "F1"
  /\ Out.FIN_PRD_CD (transform_row t (dtl "c1" "4000" "10" "r1" 1 "nan")) = Some "F0".
Proof.
  intros sheet t. split.
  - apply (product_first_sheet_row_wins sheet t (dtl "c1" "4000" "10" "r1" 1 "p1")).
    reflexivity.
  - apply (product_first_sheet_row_wins sheet t (dtl "c1" "4000" "10" "r1" 1 "nan")).
    reflexivity.
Defined.

(** X5.  A product frame that [load_product_mapping] returns has no two
    rows of the same [ATT_SLS_PRD_ID], holds exactly the cleaned keys of the
    sheet, has at most as many rows as the sheet, and all its keys and
    codes are stripped and upper-cased already. *)
Theorem product_frame_invariants (sheet : Sheet.t) (prod : list Prod.row) :
  load_product_mapping sheet = inr prod ->
  NoDup (map Prod.ATT_SLS_PRD_ID prod)
  /\ (forall k, In k (map Prod.ATT_SLS_PRD_ID prod)
                <-> In k (map sheet_key (Sheet.rows sheet)))
  /\ (List.length prod <= List.length (Sheet.rows sheet))%nat
  /\ Forall (fun p => upper (strip (Prod.ATT_SLS_PRD_ID p)) = Prod.ATT_SLS_PRD_ID p
                      /\ upper (strip (Prod.FIN_PRD_CD p)) = Prod.FIN_PRD_CD p)
            prod.
Proof.
  intros L. apply load_product_mapping_rows in L. subst prod.
  split; [apply drop_duplicates_NoDup|].
  split; [|split].
  - intros k. rewrite drop_duplicates_ids, map_map. cbn [Prod.ATT_SLS_PRD_ID].
    tauto.
  - rewrite <- (length_map (fun r => Prod.mk (sheet_key r) (sheet_value r))).
    apply drop_duplicates_length.
  - apply Forall_forall. intros p Hp. apply drop_duplicates_In in Hp.
    apply in_map_iff in Hp. destruct Hp as (s & <- & _).
    cbn [Prod.ATT_SLS_PRD_ID Prod.FIN_PRD_CD].
    split; apply clean_text_fix.
Qed.

Lemma product_frame_invariants_witness :
  NoDup (map Prod.ATT_SLS_PRD_ID [Prod.mk "P1" "F1"]).
Proof.
  apply (product_frame_invariants sample_sheet [Prod.mk "P1" "F1"]).
  reflexivity.
Defined.

End Products.

(* ================================================================== *)
(** ** Which file fills which frame *)

Section Files.

Lemma assign_file_slot (st : Slots * list string) (f : MappingFile) (c : category) :
  slot c (fst (assign_file st f))
  = if is_category c f then Some (frame f) else slot c (fst st).
Proof.
  destruct st as [s n]. unfold assign_file, is_category, file_category.
  destruct (contains "sam" _); [destruct c; reflexivity|].
  destruct (contains "mam" _); [destruct c; reflexivity|].
  destruct (contains "ma" _); [destruct c; reflexivity|].
  destruct (contains "company" _); [destruct c; reflexivity|].
  destruct (contains "ccm" _); destruct c; reflexivity.
Qed.

Lemma assign_file_notices (st : Slots * list string) (f : MappingFile) :
  snd (assign_file st f)
  = app (snd st) (if is_recognized f then [] else [skip_notice f]).
Proof.
  destruct st as [s n]. unfold assign_file, is_recognized, file_category.
  destruct (contains "sam" _); [simpl; now rewrite app_nil_r|].
  destruct (contains "mam" _); [simpl; now rewrite app_nil_r|].
  destruct (contains "ma" _); [simpl; now rewrite app_nil_r|].
  destruct (contains "company" _); [simpl; now rewrite app_nil_r|].
  destruct (contains "ccm" _); [simpl; now rewrite app_nil_r|reflexivity].
Qed.

Lemma fold_assign_slot (files : list MappingFile) (st : Slots * list string)
    (c : category) :
  slot c (fst (fold_left assign_file files st))
  = match find_last (is_category c) files with
    | Some f => Some (frame f)
    | None => slot c (fst st)
    end.
Proof.
  revert st. induction files as [|f files IH]; intros st; simpl; [reflexivity|].
  rewrite IH, find_last_cons, assign_file_slot.
  destruct (find_last _ files); [reflexivity|].
  destruct (is_category c f); reflexivity.
Qed.

Lemma fold_assign_notices (files : list MappingFile) (st : Slots * list string) :
  snd (fold_left assign_file files st)
  = app (snd st)
        (map skip_notice (filter (fun f => negb (is_recognized f)) files)).
Proof.
  revert st. induction files as [|f files IH]; intros st; simpl.
  - now rewrite app_nil_r.
  - rewrite IH, assign_file_notices.
    destruct (is_recognized f); simpl; rewrite <- app_assoc; reflexivity.
Qed.

Lemma load_slot (files : list MappingFile) (c : category) :
  slot c (fst (load_mapping_files files))
  = option_map frame (find_last (is_category c) files).
Proof.
  unfold load_mapping_files. rewrite fold_assign_slot.
  destruct (find_last _ files); [reflexivity|destruct c; reflexivity].
Qed.

Lemma slots_ext (s s' : Slots) :
  (forall c, slot c s = slot c s') -> s = s'.
Proof.
  intros H. destruct s, s'.
  pose proof (H Sam) as A. pose proof (H Mam) as B. pose proof (H Ma) as C.
  pose proof (H Company) as D. pose proof (H Ccm) as E.
  simpl in *. congruence.
Qed.

Lemma find_filter_implied {A : Type} (p q : A -> bool) (l : list A) :
  (forall x, p x = true -> q x = true) ->
  find p (filter q l) = find p l.
Proof.
  intros H. induction l as [|a l IH]; simpl; [reflexivity|].
  destruct (q a) eqn:Q; simpl.
  - destruct (p a); [reflexivity|exact IH].
  - destruct (p a) eqn:P; [|exact IH].
    apply H in P. congruence.
Qed.

Lemma filter_rev {A : Type} (q : A -> bool) (l : list A) :
  filter q (rev l) = rev (filter q l).
Proof.
  induction l as [|a l IH]; simpl; [reflexivity|].
  rewrite filter_app, IH. simpl. destruct (q a); [reflexivity|].
  now rewrite app_nil_r.
Qed.

Lemma is_category_recognized (c : category) (f : MappingFile) :
  is_category c f = true -> is_recognized f = true.
Proof.
  unfold is_category, is_recognized. destruct (file_category f); [reflexivity|].
  discriminate.
Qed.

(** X6.  After the mapping files are read, the frame of every category is
    the frame of the last uploaded file of that category, a file's
    category being the first of the tags sam, mam, ma, company, ccm that
    occurs in its lower-cased name; a category without such a file stays
    empty. *)
Theorem last_file_of_category_wins (files : list MappingFile) (c : category) :
  slot c (fst (load_mapping_files files))
  = option_map frame (find_last (is_category c) files).
Proof. apply load_slot. Qed.

(** X7.  A file of unrecognized name changes no frame: the frames are
    those of the recognized files alone, and the notices are one per
    unrecognized file, in upload order. *)
Theorem unrecognized_files_only_notify (files : list MappingFile) :
  fst (load_mapping_files (filter is_recognized files))
  = fst (load_mapping_files files)
  /\ snd (load_mapping_files files)
     = map skip_notice (filter (fun f => negb (is_recognized f)) files).
Proof.
  split.
  - apply slots_ext. intros c. rewrite !load_slot. unfold find_last.
    rewrite <- filter_rev, find_filter_implied; [reflexivity|].
    intros f. apply is_category_recognized.
  - unfold load_mapping_files. now rewrite fold_assign_notices.
Qed.

Lemma ma_tag_category (f : MappingFile) :
  contains "ma" (lower (name f)) = true ->
  is_category Company f = false /\ is_category Ccm f = false.
Proof.
  intros H. unfold is_category, file_category. rewrite H.
  destruct (contains "sam" _); [split; reflexivity|].
  destruct (contains "mam" _); split; reflexivity.
Qed.

Lemma find_last_none {A : Type} (p : A -> bool) (l : list A) :
  (forall x, In x l -> p x = false) -> find_last p l = None.
Proof.
  intros H. unfold find_last.
  destruct (find p (rev l)) as [x|] eqn:F; [|reflexivity].
  apply find_some in F. destruct F as [I P].
  apply in_rev in I. rewrite (H x I) in P. discriminate.
Qed.

(** X8.  The tag ma is tested before company and ccm: when the
    lower-cased name of every uploaded file contains [ma] (a name with the
    word mapping in it does), no file is taken as the company or the ccm
    table, and the extraction fails with the missing-files error. *)
Theorem ma_tag_shadows_company_and_ccm
    (csv : list Core.row) (files : list MappingFile) :
  (forall f, In f files -> contains "ma" (lower (name f)) = true) ->
  slot Company (fst (load_mapping_files files)) = None
  /\ slot Ccm (fst (load_mapping_files files)) = None
  /\ extract_data csv files = inl (ValueError missing_mapping_msg).
Proof.
  intros H.
  assert (C : slot Company (fst (load_mapping_files files)) = None).
  { rewrite load_slot, find_last_none; [reflexivity|].
    intros f Hf. now apply ma_tag_category, H. }
  assert (D : slot Ccm (fst (load_mapping_files files)) = None).
  { rewrite load_slot, find_last_none; [reflexivity|].
    intros f Hf. now apply ma_tag_category, H. }
  split; [exact C|split; [exact D|]].
  apply absent_some_error. unfold absent_categories, is_absent.
  cbn [filter]. rewrite C.
  destruct (slot Sam _), (slot Mam _), (slot Ma _); discriminate.
Qed.

Lemma ma_tag_shadows_company_and_ccm_witness :
  extract_data []
    [file "sam_mapping.txt"; file "mam_mapping.txt"; file "ma_mapping.txt";
     file "company_mapping.txt"; file "ccm_mapping.txt"]
  = inl (ValueError missing_mapping_msg).
Proof.
  apply (ma_tag_shadows_company_and_ccm []
           [file "sam_mapping.txt"; file "mam_mapping.txt"; file "ma_mapping.txt";
            file "company_mapping.txt"; file "ccm_mapping.txt"]).
  intros f [<-|[<-|[<-|[<-|[<-|[]]]]]]; reflexivity.
Defined.

End Files.

(* ================================================================== *)
(** ** The run as a whole *)

Section Runs.

Lemma filter_idem {A : Type} (p : A -> bool) (l : list A) :
  filter p (filter p l) = filter p l.
Proof.
  induction l as [|a l IH]; simpl; [reflexivity|].
  destruct (p a) eqn:P; simpl; [rewrite P, IH; reflexivity|exact IH].
Qed.

Lemma extract_data_ok (csv : list Core.row) (files : list MappingFile) :
  absent_categories files = [] ->
  exists sam mam ma company ccm,
    extract_data csv files = inr (filter is_dtl csv, sam, mam, ma, company, ccm).
Proof.
  intros A. destruct (absent_none_present _ A) as (sam & mam & ma & company & ccm & n & E).
  exists sam, mam, ma, company, ccm. unfold extract_data. now rewrite E.
Qed.

Lemma load_product_mapping_ok (sheet : Sheet.t) :
  has_product_columns sheet = true ->
  exists prod, load_product_mapping sheet = inr prod.
Proof.
  unfold has_product_columns, load_product_mapping. intros H.
  apply andb_true_iff in H. destruct H as [A B]. rewrite A, B. simpl.
  eexists. reflexivity.
Qed.

Lemma load_product_mapping_fails (sheet : Sheet.t) :
  has_product_columns sheet = false ->
  exists e, load_product_mapping sheet = inl e.
Proof.
  unfold has_product_columns, load_product_mapping. intros H.
  apply andb_false_iff in H.
  replace (negb _ || negb _) with true; [eexists; reflexivity|].
  destruct H as [H|H]; rewrite H; simpl; [reflexivity|now rewrite orb_true_r].
Qed.

Lemma run_completed_inputs
    (csv : list Core.row) (files : list MappingFile) (sheet : Sheet.t)
    (rep : Report) :
  run (Some csv) files (Some sheet) = Completed rep ->
  files <> [] /\ absent_categories files = []
  /\ has_product_columns sheet = true.
Proof.
  intros R. destruct files as [|f fs]; [discriminate R|].
  split; [discriminate|].
  destruct (absent_categories (f :: fs)) as [|c cs] eqn:A.
  - split; [reflexivity|].
    destruct (has_product_columns sheet) eqn:P; [reflexivity|].
    exfalso. unfold run in R.
    destruct (extract_data_ok csv (f :: fs) A) as (sam & mam & ma & co & ccm & E).
    rewrite E in R.
    destruct (load_product_mapping_fails sheet P) as [e L].
    rewrite L in R. discriminate R.
  - exfalso. unfold run in R.
    rewrite (absent_some_error csv (f :: fs)) in R; [discriminate R|].
    rewrite A. discriminate.
Qed.

(** X9.  A run completes only if the three uploads are there, every one
    of the five rule categories has a file and the product sheet has its
    two columns. *)
Theorem run_completes_only_if
    (csv_file : option (list Core.row)) (files : list MappingFile)
    (product_file : option Sheet.t) (rep : Report) :
  run csv_file files product_file = Completed rep ->
  exists csv sheet,
    csv_file = Some csv /\ product_file = Some sheet
    /\ files <> [] /\ absent_categories files = []
    /\ has_product_columns sheet = true.
Proof.
  intros R.
  destruct csv_file as [csv|]; [|discriminate R].
  destruct product_file as [sheet|]; [|destruct files; discriminate R].
  exists csv, sheet. split; [reflexivity|split; [reflexivity|]].
  now apply (run_completed_inputs csv files sheet rep).
Qed.

Lemma run_completes_only_if_witness :
  let files := [file "sam.txt"; file "mam.txt"; file "ma.txt";
                file "company.txt"; file "ccm.txt"; file "readme.txt"] in
  match run (Some [dtl "c1" "9999" "zz" EmptyString 0 EmptyString]) files
            (Some sample_sheet) with
  | Completed rep => absent_categories files = []
  | _ => False
  end.
Proof.
  intros files.
  destruct (run (Some [dtl "c1" "9999" "zz" EmptyString 0 EmptyString]) files
                (Some sample_sheet)) as [| |rep] eqn:R;
    try (vm_compute in R; discriminate R).
  destruct (run_completes_only_if _ _ _ rep R) as (csv & sheet & _ & _ & _ & A & _).
  exact A.
Defined.

Lemma map_src_transform (t : Tables) (df : list Core.row) :
  map Out.src (map (transform_row t) df) = df.
Proof.
  induction df as [|r df IH]; [reflexivity|].
  cbn [map]. rewrite IH. reflexivity.
Qed.

(** X10.  A completed run reports exactly the rows of record type DTL:
    the detail frame carries them in file order, one detail row each; the
    rows of another record type change nothing, the run on the DTL rows
    alone gives the same report; and the grand totals, the summary and
    the unmatched frame are those of the detail frame. *)
Theorem detail_holds_the_dtl_rows
    (csv : list Core.row) (files : list MappingFile) (sheet : Sheet.t)
    (rep : Report) :
  run (Some csv) files (Some sheet) = Completed rep ->
  map Out.src (detail rep) = filter is_dtl csv
  /\ run (Some (filter is_dtl csv)) files (Some sheet) = Completed rep
  /\ grouped rep = summarize (detail rep)
  /\ unmatched_records rep = filter is_unmatched (detail rep)
  /\ grand_debit rep = total_debit (detail rep)
  /\ grand_credit rep = total_credit (detail rep).
Proof.
  intros R.
  destruct (run_completed_inputs csv files sheet rep R) as (NE & A & P).
  destruct files as [|f fs]; [now elim NE|].
  destruct (extract_data_ok csv (f :: fs) A) as (sam & mam & ma & co & ccm & E).
  destruct (extract_data_ok (filter is_dtl csv) (f :: fs) A)
    as (sam' & mam' & ma' & co' & ccm' & E').
  assert (S : extract_data (filter is_dtl csv) (f :: fs)
              = inr (filter is_dtl csv, sam, mam, ma, co, ccm)).
  { unfold extract_data in *.
    destruct (load_mapping_files (f :: fs)) as [[a b c d e] n].
    destruct a, b, c, d, e; try discriminate E.
    injection E as <- <- <- <- <-.
    change (fun r => String.eqb (strip (Core.Record_Type r)) "DTL") with is_dtl.
    now rewrite filter_idem. }
  destruct (load_product_mapping_ok sheet P) as [prod L].
  unfold run in *. rewrite S. rewrite E, L in R. rewrite L.
  unfold transform_data in *. cbv beta iota zeta in *.
  injection R as <-. cbn [detail grouped unmatched_records grand_debit grand_credit].
  rewrite map_src_transform. repeat split; reflexivity.
Qed.

Lemma detail_holds_the_dtl_rows_witness :
  let csv := [dtl "c1" "4000" "10" "r1" 1 "p1";
              Core.mk "HDR" "c1" EmptyString EmptyString EmptyString EmptyString
                      EmptyString EmptyString EmptyString EmptyString EmptyString
                      EmptyString EmptyString EmptyString 5 EmptyString EmptyString
                      EmptyString EmptyString] in
  let files := [file "sam.txt"; file "mam.txt"; file "ma.txt";
                file "company.txt"; file "ccm.txt"] in
  match run (Some csv) files (Some sample_sheet) with
  | Completed rep => map Out.src (detail rep) = [dtl "c1" "4000" "10" "r1" 1 "p1"]
  | _ => False
  end.
Proof.
  intros csv files.
  destruct (run (Some csv) files (Some sample_sheet)) as [| |rep] eqn:R;
    try (vm_compute in R; discriminate R).
  apply (detail_holds_the_dtl_rows csv files sample_sheet rep R).
Defined.

End Runs.

(* ================================================================== *)
(** ** Reading the transaction file *)

Section ReadingFacts.

Variable to_numeric : string -> option Q.

Lemma cell_at_stripped (row : list (option string)) (idx : nat) :
  strip (cell_at row idx) = cell_at row idx.
Proof. unfold cell_at. apply strip_idem. Qed.

(** X11.  Every text column of a row read from the transaction file is
    stripped already, so the second stripping in [transform_data] keeps
    RCC and RCO as read, and the record-type test compares the column
    as read with [DTL]. *)
Theorem read_rows_are_stripped
    (rows : list (list (option string))) (r : Core.row) (t : Tables) :
  In r (read_core to_numeric rows) ->
  Forall (fun s => strip s = s) (text_fields r)
  /\ Out.RCC (transform_row t r) = Core.RCC r
  /\ Out.RCO (transform_row t r) = Core.RCO r
  /\ is_dtl r = String.eqb (Core.Record_Type r) "DTL".
Proof.
  intros H. apply in_map_iff in H. destruct H as (row & <- & _).
  split; [|split; [|split]].
  - unfold text_fields, core_row. cbn [Core.Record_Type Core.Company_Code
      Core.Transaction_Source Core.Transaction_Type Core.Transaction_Date
      Core.Accounting_Period Core.Location_Code Core.RCO Core.RCC
      Core.GL_Account Core.Reference_Number Core.Activity_Code Core.EXTC
      Core.Journal_Categories Core.Product_Code Core.Currency Core.Stat
      Core.Expenditure_comment].
    repeat (constructor; [apply cell_at_stripped|]). constructor.
  - apply cell_at_stripped.
  - apply cell_at_stripped.
  - unfold is_dtl. cbn [core_row Core.Record_Type].
    now rewrite cell_at_stripped.
Qed.

(** X12.  A position past the width of the file, and a missing cell, read
    as the empty text; the amount of a row is zero when its amount column
    is empty (absent, missing or blank) or is not a number; a row without
    any cell is not a DTL row. *)
Theorem missing_cells_read_as_empty (row : list (option string)) :
  (forall idx, (List.length row <= idx)%nat -> cell_at row idx = EmptyString)
  /\ (forall idx, nth_error row idx = Some None -> cell_at row idx = EmptyString)
  /\ (cell_at row 14 = EmptyString \/ to_numeric (cell_at row 14) = None ->
      Core.Amount (core_row to_numeric row) = 0%Q)
  /\ (row = [] -> is_dtl (core_row to_numeric row) = false).
Proof.
  split; [|split; [|split]].
  - intros idx H. apply nth_error_None in H. unfold cell_at. now rewrite H.
  - intros idx H. unfold cell_at. now rewrite H.
  - cbn [core_row Core.Amount]. unfold coerce_amount. intros [H|H].
    + now rewrite H.
    + rewrite H. destruct (String.eqb _ _); reflexivity.
  - intros ->. reflexivity.
Qed.

End ReadingFacts.

Lemma read_rows_are_stripped_witness :
  let r := core_row (fun _ => None) [Some " DTL "; Some "c1"] in
  Out.RCC (transform_row sample_tables r) = Core.RCC r.
Proof.
  intros r.
  apply (read_rows_are_stripped (fun _ => None) [[Some " DTL "; Some "c1"]] r
           sample_tables).
  left. reflexivity.
Defined.

Lemma missing_cells_read_as_empty_witness :
  cell_at [Some "DTL"; None] 7 = EmptyString
  /\ Core.Amount (core_row (fun _ => None) [Some "DTL"; None]) = 0%Q.
Proof.
  destruct (missing_cells_read_as_empty (fun _ => None) [Some "DTL"; None])
    as (A & _ & C & _).
  split.
  - apply A. simpl. lia.
  - apply C. left. reflexivity.
Defined.

(* ================================================================== *)
(** ** Header normalisation *)

Section Headers.

Lemma col_rename_canonical (c y : string) :
  col_rename c = Some y -> In y canonical_headers.
Proof.
  unfold col_rename, canonical_headers.
  repeat match goal with
         | |- context [if ?b then _ else _] => destruct b
         end;
    intros H; try discriminate H; injection H as <-; simpl; tauto.
Qed.

Lemma canonical_fixed (y : string) :
  In y canonical_headers -> strip y = y /\ col_rename y = Some y.
Proof.
  unfold canonical_headers.
  intros [<-|[<-|[<-|[<-|[<-|[<-|[<-|[<-|[<-|[<-|[<-|[]]]]]]]]]]]];
    split; reflexivity.
Qed.

Lemma normalize_header_fixed (col : string) :
  let x := fillna (strip col) (col_rename (strip col)) in
  fillna (strip x) (col_rename (strip x)) = x.
Proof.
  cbv zeta. destruct (col_rename (strip col)) as [y|] eqn:E; simpl.
  - apply col_rename_canonical in E. apply canonical_fixed in E.
    destruct E as [S R]. now rewrite S, R.
  - now rewrite strip_idem, E.
Qed.

(** X13.  Normalising the headers of a mapping frame twice is the same as
    normalising them once, and every header is either one of the eleven
    normalised names or is kept as stripped; already normalised headers
    stay as they are. *)
Theorem normalize_mapping_headers_idempotent (columns : list string) :
  normalize_mapping_headers (normalize_mapping_headers columns)
  = normalize_mapping_headers columns
  /\ Forall2 (fun col x => In x canonical_headers \/ x = strip col)
             columns (normalize_mapping_headers columns)
  /\ normalize_mapping_headers canonical_headers = canonical_headers.
Proof.
  split; [|split].
  - unfold normalize_mapping_headers. rewrite map_map.
    apply map_ext. intros col. apply normalize_header_fixed.
  - unfold normalize_mapping_headers.
    induction columns as [|col columns IH]; cbn [map]; constructor; [|exact IH].
    cbv zeta. destruct (col_rename (strip col)) as [y|] eqn:E; simpl.
    + left. now apply col_rename_canonical in E.
    + now right.
  - reflexivity.
Qed.

End Headers.

(* ================================================================== *)
(** ** How far rounding moves the amounts *)

Section RoundingError.
Local Open Scope Q_scope.









End RoundingError.

(* ================================================================== *)
(** ** The summary frame *)

Section SummaryFacts.
Local Open Scope Q_scope.

Lemma cmp_then_opp (c d : comparison) :
  CompOpp (cmp_then c d) = cmp_then (CompOpp c) (CompOpp d).
Proof. destruct c; reflexivity. Qed.

Lemma cell_compare_antisym (a b : option string) :
  cell_compare a b = CompOpp (cell_compare b a).
Proof.
  destruct a, b; simpl; try reflexivity. apply String.compare_antisym.
Qed.

Lemma key_compare_antisym (k1 k2 : key) :
  key_compare k1 k2 = CompOpp (key_compare k2 k1).
Proof.
  destruct k1 as [[[[[a b] c] d] e] f], k2 as [[[[[a' b'] c'] d'] e'] f'].
  unfold key_compare. rewrite !cmp_then_opp.
  rewrite <- !String.compare_antisym, <- cell_compare_antisym. reflexivity.
Qed.

Lemma key_leb_total (k1 k2 : key) : key_leb k1 k2 = false -> key_le k2 k1.
Proof.
  unfold key_le, key_leb. rewrite (key_compare_antisym k2 k1).
  destruct (key_compare k1 k2); simpl; congruence.
Qed.

Lemma insert_key_sorted (k : key) (l : list key) :
  Sorted key_le l -> Sorted key_le (insert_key k l).
Proof.
  induction 1 as [|h l S IH Hd]; simpl.
  - repeat constructor.
  - destruct (key_leb k h) eqn:E.
    + constructor; [now constructor|]. constructor. exact E.
    + constructor; [exact IH|].
      destruct l as [|h' l']; simpl.
      * constructor. now apply key_leb_total.
      * destruct (key_leb k h'); constructor;
          [now apply key_leb_total|now inversion Hd].
Qed.

Lemma sort_keys_sorted (l : list key) : Sorted key_le (sort_keys l).
Proof.
  induction l as [|k l IH]; simpl; [constructor|now apply insert_key_sorted].
Qed.

Lemma summary_keys (df : list Out.row) :
  map summary_key (summarize df) = group_keys df.
Proof.
  unfold summarize. rewrite map_map.
  induction (group_keys df) as [|k ks IH]; [reflexivity|].
  cbn [map]. now rewrite summary_row_key, IH.
Qed.

(** X16.  The summary has one row per key: no two rows share their key
    columns, and the rows come in non-decreasing order of the key columns
    (company, main account, account type label, sub account, cost center,
    product code), a missing product code after every text. *)
Theorem summary_keys_sorted_and_distinct (t : Tables) (df : list Core.row) :
  let '(_, summary, _) := transform_data t df in
  NoDup (map summary_key summary)
  /\ Sorted key_le (map summary_key summary).
Proof.
  unfold transform_data. cbv beta iota zeta. rewrite summary_keys.
  split; [apply group_keys_NoDup|apply sort_keys_sorted].
Qed.

(** X17.  Every detail row belongs to exactly one summary row: the
    summary holds a row with the key columns of the detail row, the detail
    row is one of its members, and no other summary row has that key. *)
Theorem every_row_in_one_group (t : Tables) (df : list Core.row) :
  let '(out, summary, _) := transform_data t df in
  forall r, In r out ->
    exists g, In g summary
      /\ summary_key g = group_key r
      /\ In r (members out (summary_key g))
      /\ (forall g', In g' summary -> summary_key g' = group_key r -> g' = g).
Proof.
  unfold transform_data. cbv beta iota zeta.
  set (out := map (transform_row t) df). intros r Hr.
  exists (summary_row out (group_key r)).
  rewrite summary_row_key.
  split; [|split; [reflexivity|split]].
  - apply summarize_In. exists (group_key r). split; [|reflexivity].
    apply group_keys_In. now exists r.
  - now apply members_In.
  - intros g' Hg' K. apply summarize_In in Hg'. destruct Hg' as (k & _ & ->).
    rewrite summary_row_key in K. now rewrite K.
Qed.

Lemma every_row_in_one_group_witness :
  let df := [dtl "c1" "4000" "10" "r1" 1 "p1"; dtl "c1" "9999" "10" "r1" 2 "p1"] in
  let r := transform_row sample_tables (dtl "c1" "9999" "10" "r1" 2 "p1") in
  exists g, In g (summarize (map (transform_row sample_tables) df))
            /\ summary_key g = group_key r.
Proof.
  intros df r.
  pose proof (every_row_in_one_group sample_tables df) as H.
  unfold transform_data in H. cbv beta iota zeta in H.
  destruct (H r) as (g & A & B & _).
  - right. left. reflexivity.
  - exists g. split; [exact A|exact B].
Defined.

End SummaryFacts.

(* ================================================================== *)
(** ** Account texts *)

Section Accounts.

Lemma account_split (t : Tables) (c : Core.row) :
  let r := transform_row t c in
  segments_free r = true ->
  split "*" (Out.Account r)
  = [Out.DTV_Company r; Out.DTV_Main_Account r; Out.DTV_Sub_Account r;
     Out.DTV_Cost_Center r; "0000"; Out.Product r; "000"; "00000"; "00000"].
Proof.
  intros r H. unfold segments_free in H.
  rewrite !andb_true_iff in H. destruct H as ((((Hc & Hm) & Hs) & Hk) & Hp).
  apply split_compose; auto.
Qed.

(** X19.  The account text tells the lookup results apart: two detail
    rows whose segment values hold no [*] and whose account texts are
    equal have the same company, main account, sub account, cost center
    and product segment. *)
Theorem account_identifies_segments (t1 t2 : Tables) (c1 c2 : Core.row) :
  let r1 := transform_row t1 c1 in
  let r2 := transform_row t2 c2 in
  segments_free r1 = true -> segments_free r2 = true ->
  Out.Account r1 = Out.Account r2 ->
  lookup_segments r1 = lookup_segments r2.
Proof.
  intros r1 r2 F1 F2 E.
  pose proof (account_split t1 c1 F1) as S1.
  pose proof (account_split t2 c2 F2) as S2.
  cbv zeta in S1, S2. fold r1 in S1. fold r2 in S2.
  unfold lookup_segments.
  generalize dependent (Out.DTV_Company r1). generalize dependent (Out.DTV_Company r2).
  generalize dependent (Out.DTV_Main_Account r1).
  generalize dependent (Out.DTV_Main_Account r2).
  generalize dependent (Out.DTV_Sub_Account r1).
  generalize dependent (Out.DTV_Sub_Account r2).
  generalize dependent (Out.DTV_Cost_Center r1).
  generalize dependent (Out.DTV_Cost_Center r2).
  generalize dependent (Out.Product r1). generalize dependent (Out.Product r2).
  generalize dependent (Out.Account r1). generalize dependent (Out.Account r2).
  intros; subst. congruence.
Qed.

Lemma account_identifies_segments_witness :
  let r1 := transform_row sample_tables (dtl "c1" "4000" "10" "r1" 1 "p1") in
  let r2 := transform_row sample_tables (dtl " C1" "4000 " "10" "r1" (- 7 # 2) "P1") in
  lookup_segments r1 = lookup_segments r2.
Proof.
  apply (account_identifies_segments sample_tables sample_tables
           (dtl "c1" "4000" "10" "r1" 1 "p1")
           (dtl " C1" "4000 " "10" "r1" (- 7 # 2) "P1"));
    reflexivity.
Defined.

(** X20.  A summary row whose product code is resolved has an account
    text, and when none of its six key cells holds a [*] that text splits
    on [*] into exactly ten segments: company, main account, sub account,
    account type label, cost center, [0000], product code, [000], [00000],
    [00000]. *)
Theorem summary_account_ten_segments (t : Tables) (df : list Core.row) :
  let '(_, summary, _) := transform_data t df in
  forall g fin, In g summary ->
    Summary.FIN_PRD_CD g = Some fin ->
    exists a, Summary.Account g = Some a
      /\ (Forall (fun s => free_of "*" s = true)
                 [Summary.DTV_Company g; Summary.DTV_Main_Account g;
                  Summary.DTV_Sub_Account g; Summary.AccountType g;
                  Summary.DTV_Cost_Center g; fin] ->
          split "*" a = ten_segments g fin
          /\ List.length (split "*" a) = 10%nat).
Proof.
  pose proof (summary_account_shape t df) as S.
  unfold transform_data in *. cbv beta iota zeta in *. cbn [fst snd] in S.
  intros g fin Hg F. specialize (S g Hg). rewrite F in S.
  destruct S as (a & A & S). exists a. split; [exact A|].
  intros H.
  inversion H as [|? ? H1 H']; subst. inversion H' as [|? ? H2 H'']; subst.
  inversion H'' as [|? ? H3 H3']; subst. inversion H3' as [|? ? H4 H4']; subst.
  inversion H4' as [|? ? H5 H5']; subst. inversion H5' as [|? ? H6 _]; subst.
  rewrite (S H1 H2 H3 H4 H5 H6). split; reflexivity.
Qed.

Lemma summary_account_ten_segments_witness :
  let df := [dtl "c1" "4000" "10" "r1" 1 "p1"] in
  let out := map (transform_row sample_tables) df in
  let g := summary_row out (group_key (transform_row sample_tables
                                         (dtl "c1" "4000" "10" "r1" 1 "p1"))) in
  exists a, Summary.Account g = Some a /\ List.length (split "*" a) = 10%nat.
Proof.
  intros df out g.
  assert (I : In g (summarize out)) by (vm_compute; left; reflexivity).
  pose proof (summary_account_ten_segments sample_tables df) as H.
  unfold transform_data in H. cbv beta iota zeta in H.
  destruct (H g "F1" I eq_refl) as (a & A & S).
  exists a. split; [exact A|].
  apply S. repeat constructor.
Defined.

End Accounts.

(* ================================================================== *)
(** ** What the page shows *)

Section Page.
Local Open Scope Q_scope.

Lemma append_nonempty_r (a b : string) :
  b <> EmptyString -> (a ++ b)%string <> EmptyString.
Proof. destruct a; simpl; [tauto|discriminate]. Qed.

Lemma fmt2_nonempty (q : Q) : fmt2 q <> EmptyString.
Proof.
  unfold fmt2. apply append_nonempty_r, append_nonempty_r. discriminate.
Qed.



Lemma lines_of_In (g : Summary.row) (l : Line.row) :
  In l (lines_of g) <->
  (nonzero (Summary.Debit g) = true
   /\ l = line_of g (fmt2 (Summary.Debit g)) EmptyString)
  \/ (nonzero (Summary.Credit g) = true
      /\ l = line_of g EmptyString (fmt2 (Summary.Credit g))).
Proof.
  unfold lines_of. rewrite in_app_iff.
  destruct (nonzero (Summary.Debit g)), (nonzero (Summary.Credit g)); simpl;
    intuition (try discriminate; auto).
Qed.

(** X21.  Every line that [prepare_debit_credit_rows] gives comes from a
    summary row and carries its key cells and account; it has exactly one
    of debit and credit filled, with the two-decimal text of a total of
    that row that is not zero; a summary row whose debit and credit are
    both zero gives no line, one with both non-zero gives two. *)
Theorem grouped_lines_one_sided (summary : list Summary.row) :
  (forall l, In l (prepare_debit_credit_rows summary) ->
     exists g, In g summary
       /\ ((nonzero (Summary.Debit g) = true
            /\ l = line_of g (fmt2 (Summary.Debit g)) EmptyString
            /\ Line.Debit l <> EmptyString /\ Line.Credit l = EmptyString)
           \/ (nonzero (Summary.Credit g) = true
               /\ l = line_of g EmptyString (fmt2 (Summary.Credit g))
               /\ Line.Debit l = EmptyString /\ Line.Credit l <> EmptyString)))
  /\ (forall g, Summary.Debit g == 0 -> Summary.Credit g == 0 -> lines_of g = [])
  /\ (forall g, ~ Summary.Debit g == 0 -> ~ Summary.Credit g == 0 ->
        lines_of g = [line_of g (fmt2 (Summary.Debit g)) EmptyString;
                      line_of g EmptyString (fmt2 (Summary.Credit g))]).
Proof.
  split; [|split].
  - intros l H. unfold prepare_debit_credit_rows in H.
    apply in_flat_map in H. destruct H as (g & Hg & Hl).
    exists g. split; [exact Hg|].
    apply lines_of_In in Hl. destruct Hl as [[N ->]|[N ->]]; [left|right];
      (split; [exact N|split; [reflexivity|]]); cbn [line_of Line.Debit Line.Credit];
      split; try reflexivity; apply fmt2_nonempty.
  - intros g D C. unfold lines_of, nonzero.
    apply Qeq_bool_iff in D, C. now rewrite D, C.
  - intros g D C. unfold lines_of, nonzero.
    destruct (Qeq_bool (Summary.Debit g) 0) eqn:ED;
      [apply Qeq_bool_iff in ED; contradiction|].
    destruct (Qeq_bool (Summary.Credit g) 0) eqn:EC;
      [apply Qeq_bool_iff in EC; contradiction|].
    reflexivity.
Qed.

Lemma grouped_lines_one_sided_witness :
  lines_of (Summary.mk "D1" "1" "Asset" "2" "3" None 0 0 None) = [].
Proof.
  destruct (grouped_lines_one_sided []) as (_ & H & _).
  apply H; reflexivity.
Defined.


(** X23.  The unmatched tab shows the notice that every record matched
    exactly when every detail row has a main account and a sub account
    other than [000000], a company other than [NULL] and a product code
    found; otherwise it lists the seven diagnosis columns of the
    unmatched rows, one line per unmatched row. *)
Theorem unmatched_tab_notice (t : Tables) (df : list Core.row) :
  let '(out, summary, unmatched) := transform_data t df in
  let scr := load_summary out summary unmatched in
  (unmatched_tab scr = None <->
   forall r, In r out ->
     Out.DTV_Main_Account r <> "000000" /\ Out.DTV_Sub_Account r <> "000000"
     /\ Out.DTV_Company r <> "NULL" /\ Out.FIN_PRD_CD r <> None)
  /\ (forall lines, unmatched_tab scr = Some lines ->
        lines = map diag_of (filter is_unmatched out) /\ lines <> []).
Proof.
  unfold transform_data. cbv beta iota zeta.
  set (out := map (transform_row t) df).
  cbn [load_summary unmatched_tab].
  split.
  - split.
    + intros H r Hr.
      assert (U : is_unmatched r = false).
      { destruct (is_unmatched r) eqn:E; [|reflexivity].
        assert (I : In r (filter is_unmatched out)) by now apply filter_In.
        destruct (filter is_unmatched out); [contradiction|discriminate]. }
      assert (N : ~ (Out.DTV_Main_Account r = "000000"
                     \/ Out.DTV_Sub_Account r = "000000"
                     \/ Out.DTV_Company r = "NULL" \/ Out.FIN_PRD_CD r = None)).
      { intros C. apply is_unmatched_iff in C. congruence. }
      tauto.
    + intros H. destruct (filter is_unmatched out) as [|r l] eqn:E; [reflexivity|].
      exfalso.
      assert (I : In r (filter is_unmatched out)) by (rewrite E; now left).
      apply filter_In in I. destruct I as [I U].
      apply is_unmatched_iff in U. specialize (H r I). tauto.
  - intros lines H. destruct (filter is_unmatched out) as [|r l] eqn:E;
      [discriminate|].
    injection H as <-. split; [reflexivity|discriminate].
Qed.

Lemma unmatched_tab_notice_witness :
  unmatched_tab
    (let '(out, summary, unmatched) :=
       transform_data sample_tables [dtl "c1" "4000" "10" "r1" 1 "p1"] in
     load_summary out summary unmatched)
  = None.
Proof.
  pose proof (unmatched_tab_notice sample_tables [dtl "c1" "4000" "10" "r1" 1 "p1"]) as H.
  unfold transform_data in *. cbv beta iota zeta in *.
  destruct H as [H _]. apply H.
  intros r [<-|[]]. repeat split; discriminate.
Defined.

End Page.

(* ================================================================== *)
(** ** Defaults, reversals and the amount text *)

Section Defaults.
Local Open Scope Q_scope.

Lemma select_no_gl (tbl : list Mapping.row) (gl ex : string) :
  (forall m, In m tbl -> fst (rule_key m) <> gl) -> select tbl gl ex = [].
Proof.
  intros H. unfold select. induction tbl as [|m tbl IH]; [reflexivity|].
  cbn [filter].
  destruct (String.eqb_spec (clean_str (PyStr (Mapping.GL_Account m))) gl) as [E|_].
  - exfalso. apply (H m); [now left|exact E].
  - cbn [andb]. apply IH. intros m' Hm'. apply H. now right.
Qed.

Lemma match_one_no_gl (tbl : list Mapping.row) (col : Mapping.row -> string)
    (d gl ex : string) :
  (forall m, In m tbl -> fst (rule_key m) <> gl) -> match_one tbl col d gl ex = d.
Proof.
  intros H. unfold match_one. now rewrite !select_no_gl.
Qed.

(** X24.  A transaction whose cleaned GL account occurs in no row of the
    main-account table gets the main account [000000], and likewise
    [000000] as sub account when the sub-account table has no row of it;
    in either case its detail row is in the unmatched frame. *)
Theorem unknown_gl_account_is_unmatched
    (t : Tables) (df : list Core.row) (r : Core.row) :
  In r df ->
  let out := transform_row t r in
  ((forall m, In m (mam_df t) -> fst (rule_key m) <> fst (record_key r)) ->
   Out.DTV_Main_Account out = "000000" /\ In out (snd (transform_data t df)))
  /\ ((forall m, In m (sam_df t) -> fst (rule_key m) <> fst (record_key r)) ->
      Out.DTV_Sub_Account out = "000000" /\ In out (snd (transform_data t df))).
Proof.
  intros Hr out.
  assert (I : In out (map (transform_row t) df)) by now apply in_map.
  split; intros H.
  - assert (M : Out.DTV_Main_Account out = "000000").
    { subst out. cbn [transform_row Out.DTV_Main_Account].
      rewrite !clean_str_idem. now apply match_one_no_gl. }
    split; [exact M|]. unfold transform_data. cbn [snd].
    apply filter_In. split; [exact I|]. apply is_unmatched_iff. now left.
  - assert (M : Out.DTV_Sub_Account out = "000000").
    { subst out. cbn [transform_row Out.DTV_Sub_Account].
      rewrite !clean_str_idem. now apply match_one_no_gl. }
    split; [exact M|]. unfold transform_data. cbn [snd].
    apply filter_In. split; [exact I|]. apply is_unmatched_iff. right. now left.
Qed.

Lemma unknown_gl_account_is_unmatched_witness :
  let r := dtl "c1" "9999" "10" "r1" 1 "p1" in
  Out.DTV_Main_Account (transform_row sample_tables r) = "000000".
Proof.
  intros r.
  destruct (unknown_gl_account_is_unmatched sample_tables [r] r (or_introl eq_refl))
    as [H _].
  assert (N : forall m, In m (mam_df sample_tables) ->
                        fst (rule_key m) <> fst (record_key r))
    by (intros m [<-|[<-|[]]]; discriminate).
  exact (proj1 (H N)).
Defined.

(** X25.  The product segment against the unmatched flag: a row whose
    product lookup found nothing shows [0000] and is flagged; a row whose
    lookup found a code shows that code unless it is empty, UNMATCHED or
    MISSING, which show as [0000] too, and the product alone does not flag
    such a row. *)
Theorem product_segment_and_flag (t : Tables) (c : Core.row) :
  let r := transform_row t c in
  (Out.FIN_PRD_CD r = None -> Out.Product r = "0000" /\ is_unmatched r = true)
  /\ (forall p, Out.FIN_PRD_CD r = Some p ->
        (In p [EmptyString; "UNMATCHED"; "MISSING"] -> Out.Product r = "0000")
        /\ (~ In p [EmptyString; "UNMATCHED"; "MISSING"] -> Out.Product r = p)
        /\ (is_unmatched r = true ->
            Out.DTV_Main_Account r = "000000" \/ Out.DTV_Sub_Account r = "000000"
            \/ Out.DTV_Company r = "NULL")).
Proof.
  intros r.
  assert (P : Out.Product r = replace_placeholders (fillna "0000" (Out.FIN_PRD_CD r)))
    by reflexivity.
  split.
  - intros N. rewrite P, N. split; [reflexivity|].
    apply is_unmatched_iff. now do 3 right.
  - intros p S. rewrite P, S. cbn [fillna]. unfold replace_placeholders.
    split; [|split].
    + intros [<-|[<-|[<-|[]]]]; reflexivity.
    + intros N.
      destruct (String.eqb_spec p EmptyString) as [->|_]; [elim N; now left|].
      destruct (String.eqb_spec p "UNMATCHED") as [->|_];
        [elim N; right; now left|].
      destruct (String.eqb_spec p "MISSING") as [->|_];
        [elim N; right; right; now left|].
      reflexivity.
    + intros U. apply is_unmatched_iff in U. rewrite S in U.
      destruct U as [U|[U|[U|U]]]; [tauto|tauto|tauto|discriminate].
Qed.

Lemma product_segment_and_flag_witness :
  let r := transform_row sample_tables (dtl "c1" "4000" "10" "r1" 1 "p2") in
  Out.Product r = "0000" /\ is_unmatched r = false.
Proof.
  intros r.
  destruct (product_segment_and_flag sample_tables (dtl "c1" "4000" "10" "r1" 1 "p2"))
    as [_ H].
  destruct (H "MISSING" eq_refl) as (A & _ & _).
  split; [|reflexivity].
  apply A. right. right. now left.
Defined.

Lemma Qltb_flip (x y : Q) : y == - x -> Qltb 0 y = Qltb x 0 /\ Qltb y 0 = Qltb 0 x.
Proof.
  intros E. split.
  - destruct (Qltb 0 y) eqn:A; destruct (Qltb x 0) eqn:B; try reflexivity.
    + apply Qltb_lt in A. apply Qltb_ge in B. lra.
    + apply Qltb_ge in A. apply Qltb_lt in B. lra.
  - destruct (Qltb y 0) eqn:A; destruct (Qltb 0 x) eqn:B; try reflexivity.
    + apply Qltb_lt in A. apply Qltb_ge in B. lra.
    + apply Qltb_ge in A. apply Qltb_lt in B. lra.
Qed.

Lemma debit_credit_flip (x y : Q) :
  y == - x -> debit_of y == credit_of x /\ credit_of y == debit_of x.
Proof.
  intros E. destruct (Qltb_flip x y E) as [A B].
  unfold debit_of, credit_of. rewrite A, B. split.
  - destruct (Qltb x 0) eqn:N; [|reflexivity].
    apply Qltb_lt in N. apply round2_comp.
    rewrite (Qabs_neg x) by lra. exact E.
  - destruct (Qltb 0 x) eqn:P; [|reflexivity].
    apply Qltb_lt in P. apply round2_comp.
    rewrite (Qabs_neg y) by lra. rewrite E. ring.
Qed.

(** X26.  Reversing the sign of an amount swaps debit and credit: for two
    transactions of opposite amounts, the debit of one detail row is the
    credit of the other, and the amounts of the detail rows are opposite. *)
Theorem opposite_amounts_swap_sides (t t' : Tables) (c c' : Core.row) :
  Core.Amount c' == - Core.Amount c ->
  let r := transform_row t c in
  let r' := transform_row t' c' in
  Out.Debit r' == Out.Credit r
  /\ Out.Credit r' == Out.Debit r
  /\ Out.Amount r' == - Out.Amount r.
Proof.
  intros E. cbv zeta. cbn [transform_row Out.Debit Out.Credit Out.Amount].
  destruct (debit_credit_flip _ _ E) as [A B].
  split; [exact A|split; [exact B|]].
  rewrite (round2_comp _ _ E). apply round2_opp.
Qed.

Lemma opposite_amounts_swap_sides_witness :
  Out.Debit (transform_row sample_tables (dtl "c1" "4000" "10" "r1" (5 # 4) "p1"))
  == Out.Credit (transform_row sample_tables (dtl "c2" "1" "2" "r" (- 5 # 4) "p")).
Proof.
  apply (opposite_amounts_swap_sides sample_tables sample_tables
           (dtl "c2" "1" "2" "r" (- 5 # 4) "p")
           (dtl "c1" "4000" "10" "r1" (5 # 4) "p1")).
  reflexivity.
Defined.

End Defaults.

(* ================================================================== *)
(** ** The text of an amount *)

Section AmountText.
Local Open Scope Q_scope.





End AmountText.
